(** * vscode-chronicler: the FFmpeg argument synthesiser and GIF transcoder

    A shallow embedding of [src/ffmpeg.ts] (class [FFmpegUtil]) and the
    properties its specification states about it.

    - [JS]         the fragment of JavaScript the module relies on: values
                   and truthiness, binary64 numbers with their rounding,
                   multiplication and printing,
                   [String.prototype.replace] with a string pattern, a
                   backtracking regular-expression matcher, [split] and
                   [parseInt].
    - [Proc]       the process-spawn collaborator as a state-and-error monad
                   over the log of spawned processes.
    - [FFmpegUtil] the class itself, one definition per method.
    - [Spec]       the vocabulary of the specification: the merge rule, the
                   groups of the command line, device entries read without
                   the patterns, the processes of a recording and of a
                   transcode.
    - [Scenarios]  concrete intents, hosts and discovery texts.
    - [FFmpegSpec] the theorems. *)

From Stdlib Require Import ZArith QArith Qround Ascii String List DecimalString.
From Stdlib Require Decimal DecimalPos.
From stdpp Require Import base option list strings gmap.

Import ListNotations.
Local Open Scope string_scope.
Local Open Scope list_scope.

(* ===================================================================== *)
(** * JavaScript values                                                   *)
(* ===================================================================== *)

Module JS.

(** A JavaScript number: [NaN], an infinity or a finite value. A finite
    value is kept as the rational it denotes; the numbers of a program are
    the binary64 ones, and the operations below round their results to
    binary64 as the language does. The sign of a zero is not kept: nothing
    here tells [-0] from [0]. *)
Inductive Num : Type :=
| NaN
| Inf (negative : bool)
| Fin (q : Q).

(** The values that travel through the flag tables, the override bag and
    the argument array. *)
Inductive Value : Type :=
| VUndefined
| VNull
| VBool (b : bool)
| VNum (n : Num)
| VStr (s : string).

Definition VInt (z : Z) : Value := VNum (Fin (inject_Z z)).

Definition is_zero (q : Q) : bool := (Qnum q =? 0)%Z.

Definition is_negative (q : Q) : bool := (Qnum q <? 0)%Z.

(** ToBoolean on numbers: [0], [-0] and [NaN] are falsy. *)
Definition truthy_num (n : Num) : bool :=
  match n with
  | NaN => false
  | Inf _ => true
  | Fin q => negb (is_zero q)
  end.

(** ToBoolean. *)
Definition truthy (v : Value) : bool :=
  match v with
  | VUndefined | VNull => false
  | VBool b => b
  | VNum n => truthy_num n
  | VStr s => negb (String.eqb s EmptyString)
  end.

(** [a || b]. *)
Definition or (a b : Value) : Value := if truthy a then a else b.

(** An object literal with string keys, in insertion order (which is the
    order [Object.keys] enumerates non-index keys in). *)
Definition Obj : Type := list (string * Value).

Definition keys (o : Obj) : list string := map fst o.

(** [o[k]] on an object literal, for a key that is not a member of
    [Object.prototype]: [undefined] when the key is absent. The keys looked
    up in this module are the names of the flag tables and [f] and [i]. *)
Fixpoint prop (o : Obj) (k : string) : Value :=
  match o with
  | [] => VUndefined
  | (k', v) :: o' => if String.eqb k' k then v else prop o' k
  end.

(** [src[k]] on the override bag, a plain object used as a dictionary, for
    a key that is not a member of [Object.prototype]. The keys looked up in
    this module are the names of the flag tables, [f], [i], [audio_f] and
    [audio_i]. *)
Definition field (src : gmap string Value) (k : string) : Value :=
  match src !! k with
  | Some v => v
  | None => VUndefined
  end.

(** ** Numbers

    Rounding to binary64: to the nearest number with a 53-bit significand,
    ties to the even significand, gradual underflow below [2^-1022] and
    overflow to an infinity from [2^1024 - 2^970]. *)

Definition pow2 (e : Z) : Q :=
  if (0 <=? e)%Z then inject_Z (2 ^ e) else (1 # Z.to_pos (2 ^ (- e)))%Q.

Definition pow10 (e : Z) : Q :=
  if (0 <=? e)%Z then inject_Z (10 ^ e) else (1 # Z.to_pos (10 ^ (- e)))%Q.

(** [e] with [2^e <= a < 2^(e+1)], for a positive [a]. *)
Definition log2_floor (a : Q) : Z :=
  let d := (Z.log2 (Qnum a) - Z.log2 (Zpos (Qden a)))%Z in
  if Qle_bool (pow2 d) a then d else (d - 1)%Z.

Definition round_half_even (m : Q) : Z :=
  let f := Qfloor m in
  match Qcompare (m - inject_Z f)%Q (1 # 2)%Q with
  | Lt => f
  | Gt => (f + 1)%Z
  | Eq => if Z.even f then f else (f + 1)%Z
  end.

Definition round64_pos (a : Q) : Num :=
  let e := Z.max (log2_floor a - 52) (-1074) in
  let v := (inject_Z (round_half_even (a / pow2 e)) * pow2 e)%Q in
  if Qle_bool (pow2 1024) v then Inf false else Fin (Qred v).

Definition neg (n : Num) : Num :=
  match n with
  | NaN => NaN
  | Inf s => Inf (negb s)
  | Fin q => Fin (- q)%Q
  end.

(** The binary64 number nearest to the real [q]. *)
Definition round64 (q : Q) : Num :=
  if is_zero q then Fin 0
  else if is_negative q then neg (round64_pos (- q)%Q)
  else round64_pos q.

(** The number a decimal literal of value [q] denotes, as [0.7]. *)
Definition lit (q : Q) : Num := round64 q.

(** [a * b]: the exact product, rounded. *)
Definition mul (a b : Num) : Num :=
  match a, b with
  | NaN, _ | _, NaN => NaN
  | Inf s, Inf t => Inf (xorb s t)
  | Inf s, Fin q | Fin q, Inf s =>
      if is_zero q then NaN else Inf (xorb s (is_negative q))
  | Fin p, Fin q => round64 (p * q)%Q
  end.

(** An integer-valued number, an infinity or [NaN]: what [parseInt] and
    [Math.trunc] return. *)
Inductive Integral : Type :=
| INaN
| IInf (negative : bool)
| IInt (z : Z).

Definition num_of (i : Integral) : Num :=
  match i with
  | INaN => NaN
  | IInf s => Inf s
  | IInt z => Fin (inject_Z z)
  end.

(** [Math.trunc(n)]. *)
Definition trunc (n : Num) : Integral :=
  match n with
  | NaN => INaN
  | Inf s => IInf s
  | Fin q => IInt (Z.quot (Qnum q) (Zpos (Qden q)))
  end.

(** [Math.trunc(w * s)]: the product is rounded to binary64 before it is
    truncated, so [1440 * 0.7] gives [1007]. *)
Definition trunc_mul (w s : Num) : Integral := trunc (mul w s).

(** The Number value of the integer [z]: [z] itself up to 53 bits, the
    nearest binary64 number, ties to even, beyond. *)
Definition of_integer (z : Z) : Integral :=
  let a := Z.abs z in
  let e := (Z.log2 a - 52)%Z in
  if (e <=? 0)%Z then IInt z
  else
    let m := (a / 2 ^ e)%Z in
    let r := (a mod 2 ^ e)%Z in
    let half := (2 ^ (e - 1))%Z in
    let m' := if (half <? r)%Z || ((r =? half)%Z && Z.odd m)
              then (m + 1)%Z else m in
    let v := (m' * 2 ^ e)%Z in
    if (2 ^ 1024 <=? v)%Z then IInf (z <? 0)%Z else IInt (Z.sgn z * v).

(** The decimal numeral of an integer. *)
Definition decimal (z : Z) : string := NilZero.string_of_int (Z.to_int z).

(** *** Number::toString

    [`${n}`] prints the shortest decimal digits [s], [k] of them, and the
    magnitude [n] such that [s * 10^(n-k)] reads back as the number, the
    closest such to it, and lays them out as a decimal numeral for
    [-6 < n <= 21] and in exponent notation otherwise. *)

Definition digits (z : Z) : Z := Z.of_nat (String.length (decimal z)).

(** [n] with [10^(n-1) <= a < 10^n], for a positive [a]. *)
Definition magnitude (a : Q) : Z :=
  let d := (digits (Qnum a) - digits (Zpos (Qden a)))%Z in
  if Qle_bool (pow10 d) a then (d + 1)%Z else d.

Definition reads_back (x v : Q) : bool :=
  match round64 v with
  | Fin y => Qeq_bool y x
  | _ => false
  end.

(** The digits and magnitude of the positive binary64 number [x], looked
    for with [k] digits and more; seventeen digits always suffice. *)
Fixpoint shortest (fuel : nat) (k : Z) (x : Q) (n : Z) : Z * Z :=
  let scale := pow10 (n - k) in
  let t := (x / scale)%Q in
  let lo := Qfloor t in
  let hi := (lo + 1)%Z in
  let up := if (hi =? 10 ^ k)%Z then ((10 ^ (k - 1))%Z, (n + 1)%Z) else (hi, n) in
  match reads_back x (inject_Z lo * scale)%Q,
        reads_back x (inject_Z hi * scale)%Q with
  | true, false => (lo, n)
  | false, true => up
  | true, true =>
      match Qcompare (t - inject_Z lo)%Q (1 # 2)%Q with
      | Lt => (lo, n)
      | Gt => up
      | Eq => if Z.even lo then (lo, n) else up
      end
  | false, false =>
      match fuel with
      | S fuel' => shortest fuel' (k + 1) x n
      | O => (lo, n)
      end
  end.

Fixpoint zeros (n : nat) : string :=
  match n with
  | O => EmptyString
  | S n' => String "0" (zeros n')
  end.

Definition format (ds : string) (n : Z) : string :=
  let k := Z.of_nat (String.length ds) in
  if (k <=? n)%Z && (n <=? 21)%Z then ds +:+ zeros (Z.to_nat (n - k))
  else if (0 <? n)%Z && (n <=? 21)%Z
  then substring 0 (Z.to_nat n) ds +:+ "."
       +:+ substring (Z.to_nat n) (Z.to_nat (k - n)) ds
  else if (-6 <? n)%Z && (n <=? 0)%Z then "0." +:+ zeros (Z.to_nat (- n)) +:+ ds
  else
    let e := (n - 1)%Z in
    (if (k =? 1)%Z then ds
     else substring 0 1 ds +:+ "." +:+ substring 1 (Z.to_nat (k - 1)) ds)
    +:+ "e" +:+ (if (e <? 0)%Z then "-" else "+") +:+ decimal (Z.abs e).

Definition to_string_pos (x : Q) : string :=
  let '(s, n) := shortest 17 1 x (magnitude x) in
  format (decimal s) n.

(** [`${n}`]. *)
Definition to_string (n : Num) : string :=
  match n with
  | NaN => "NaN"
  | Inf false => "Infinity"
  | Inf true => "-Infinity"
  | Fin q =>
      match round64 q with
      | Fin x =>
          if is_zero x then "0"
          else if is_negative x then "-" +:+ to_string_pos (- x)%Q
          else to_string_pos x
      | Inf false => "Infinity"
      | Inf true => "-Infinity"
      | NaN => "NaN"
      end
  end.

Definition show_int (i : Integral) : string := to_string (num_of i).

(** ** Strings *)

(** The double quote, the backslash and the line feed, as one-character
    strings. *)
Definition dq : string := String (ascii_of_nat 34) EmptyString.
Definition backslash : string := String (ascii_of_nat 92) EmptyString.
Definition lf : string := String (ascii_of_nat 10) EmptyString.

Fixpoint strip_prefix (p s : string) : option string :=
  match p with
  | EmptyString => Some s
  | String a p' =>
      match s with
      | EmptyString => None
      | String b s' => if Ascii.eqb a b then strip_prefix p' s' else None
      end
  end.

(** [s.replace(pat, rep)] with a string pattern and a replacement without
    [$] patterns: only the first (leftmost) occurrence is replaced. *)
Fixpoint replace (pat rep s : string) : string :=
  match strip_prefix pat s with
  | Some rest => rep +:+ rest
  | None =>
      match s with
      | EmptyString => EmptyString
      | String c s' => String c (replace pat rep s')
      end
  end.

(** [s.endsWith(suffix)]. *)
Definition ends_with (suffix s : string) : bool :=
  let n := String.length s - String.length suffix in
  (String.length suffix <=? String.length s)%nat
  && String.eqb (substring n (String.length suffix) s) suffix.

(** ** Regular expressions

    Strings are sequences of code units below 256. The matcher is the
    backtracking one of the language: alternatives are tried in priority
    order and the first complete match wins. *)

Definition is_digit (a : ascii) : bool :=
  let n := nat_of_ascii a in (48 <=? n)%nat && (n <=? 57)%nat.

(** [\s]: tab, line feed, vertical tab, form feed, carriage return,
    space and no-break space. *)
Definition is_space (a : ascii) : bool :=
  let n := nat_of_ascii a in
  ((9 <=? n)%nat && (n <=? 13)%nat) || (n =? 32)%nat || (n =? 160)%nat.

Definition not_newline (a : ascii) : bool := negb (nat_of_ascii a =? 10)%nat.

(** Canonicalisation under the [i] flag. Only [a]-[z] map into the ASCII
    range, so this decides equality with an ASCII pattern character. *)
Definition upper (a : ascii) : ascii :=
  let n := nat_of_ascii a in
  if (97 <=? n)%nat && (n <=? 122)%nat then ascii_of_nat (n - 32) else a.

Inductive regex : Type :=
| REps                           (* the empty pattern *)
| RChr (c : ascii)               (* a pattern character *)
| RSet (p : ascii -> bool)       (* a character class *)
| RSeq (r1 r2 : regex)
| RStar (r : regex)              (* greedy [*] *)
| RGroup (r : regex).            (* the capturing group *)

Definition RPlus (r : regex) : regex := RSeq r (RStar r).

Fixpoint RLit (s : string) : regex :=
  match s with
  | EmptyString => REps
  | String c s' => RSeq (RChr c) (RLit s')
  end.

Fixpoint RCat (rs : list regex) : regex :=
  match rs with
  | [] => REps
  | r :: rs' => RSeq r (RCat rs')
  end.

Section Matcher.
Context {R : Type}.
(** [ci] is the [i] flag. *)
Variable ci : bool.

Definition chr_eq (c a : ascii) : bool :=
  if ci then Ascii.eqb (upper c) (upper a) else Ascii.eqb c a.

Definition Cont : Type := string -> option string -> option R.

(** The iterations of a greedy [*] over the matcher [m] of its body:
    one more iteration is tried before the continuation, and an
    iteration that consumes nothing is rejected, as in the language.
    [n] bounds the iterations and starts at the length of the string. *)
Fixpoint star (m : string -> option string -> Cont -> option R) (k : Cont)
         (n : nat) (s : string) (cap : option string) : option R :=
  match n with
  | O => k s cap
  | S n' =>
      match m s cap
              (fun s1 c1 =>
                 if (String.length s1 <? String.length s)%nat
                 then star m k n' s1 c1 else None) with
      | Some v => Some v
      | None => k s cap
      end
  end.

(** [rmatch r s cap k]: match [r] at the start of [s], then continue
    with [k] on the rest; [cap] is the text captured so far. [None] makes
    the matcher backtrack. *)
Fixpoint rmatch (r : regex) (s : string) (cap : option string) (k : Cont)
  : option R :=
  match r with
  | REps => k s cap
  | RChr c =>
      match s with
      | String a s' => if chr_eq c a then k s' cap else None
      | EmptyString => None
      end
  | RSet p =>
      match s with
      | String a s' => if p a then k s' cap else None
      | EmptyString => None
      end
  | RSeq r1 r2 => rmatch r1 s cap (fun s1 c1 => rmatch r2 s1 c1 k)
  | RStar r' => star (rmatch r') k (String.length s) s cap
  | RGroup r' =>
      rmatch r' s cap
        (fun s1 _ =>
           k s1 (Some (substring 0 (String.length s - String.length s1) s)))
  end.
End Matcher.

(** [s.match(re)] without the [g] flag: the leftmost match; the result is
    the text of the capturing group, [None] when nothing matches. *)
Fixpoint rsearch (ci : bool) (r : regex) (s : string) : option (option string) :=
  match rmatch ci r s None (fun _ c => Some c) with
  | Some c => Some c
  | None =>
      match s with
      | EmptyString => None
      | String _ s' => rsearch ci r s'
      end
  end.

(** [s.split(re)] for a pattern without capturing groups. [cur] holds, in
    reverse, the characters since the last separator. *)
Fixpoint split_go (fuel : nat) (ci : bool) (r : regex) (cur : string) (s : string)
  : list string :=
  match fuel with
  | O => [String.rev cur +:+ s]
  | S fuel' =>
      match s with
      | EmptyString => [String.rev cur]
      | String c s' =>
          match rmatch ci r s None (fun rest _ => Some rest) with
          | Some rest =>
              if (String.length rest =? String.length s)%nat
                 && String.eqb cur EmptyString
              then split_go fuel' ci r (String c cur) s'
              else if (String.length rest =? String.length s)%nat
              then String.rev cur :: split_go fuel' ci r (String c EmptyString) s'
              else String.rev cur :: split_go fuel' ci r EmptyString rest
          | None => split_go fuel' ci r (String c cur) s'
          end
      end
  end.

Definition split (ci : bool) (r : regex) (s : string) : list string :=
  match s with
  | EmptyString =>
      match rmatch ci r s None (fun _ _ => Some tt) with
      | Some _ => []
      | None => [EmptyString]
      end
  | _ => split_go (String.length s) ci r EmptyString s
  end.

(** ** [parseInt(s, 10)]

    The digits are read exactly and their value is rounded once, to the
    nearest number (the language lets an implementation drop digits after
    the twentieth; the engines the extension runs on do not). *)

Fixpoint skip_spaces (s : string) : string :=
  match s with
  | String a s' => if is_space a then skip_spaces s' else s
  | EmptyString => s
  end.

Fixpoint digits_value (acc : option Z) (s : string) : option Z :=
  match s with
  | String a s' =>
      if is_digit a
      then digits_value
             (Some (10 * default 0%Z acc + Z.of_nat (nat_of_ascii a - 48))%Z) s'
      else acc
  | EmptyString => acc
  end.

Definition parseInt (s : string) : Integral :=
  let s := skip_spaces s in
  let '(sign, s) :=
    match s with
    | String "-" s' => ((-1)%Z, s')
    | String "+" s' => (1%Z, s')
    | _ => (1%Z, s)
    end in
  match digits_value None s with
  | Some v => of_integer (sign * v)
  | None => INaN
  end.

End JS.

(* ===================================================================== *)
(** * The process-spawn collaborator                                      *)
(* ===================================================================== *)

(** [Util.processToPromise(cmd, args)] lives outside this module. It is
    modelled by what the module observes of it: every call is recorded in a
    log, and the host decides how the process ends and what it writes. *)
Module Proc.
Import JS.

(** What a finished process showed: whether its completion promise
    resolved, and the chunks it wrote to its two streams, all of them
    delivered to the listeners before the promise settles. *)
Record Outcome : Type := {
  exit_ok : bool;
  stdout : list string;
  stderr : list string
}.

Definition Spawn : Type := string * list Value.

Definition World : Type := string -> list Value -> Outcome.

Inductive Err : Type :=
| Error (msg : string)          (* [new Error(msg)] *)
| ProcessFailed.                (* the rejection of a completion promise *)

Inductive Result (A : Type) : Type :=
| Ok (a : A)
| Throw (e : Err).
Arguments Ok {A} a.
Arguments Throw {A} e.

(** A settled promise. *)
Definition Promise (A : Type) : Type := Result A.

(** An async computation: it extends the log of spawned processes and
    returns or throws. *)
Definition M (A : Type) : Type := list Spawn -> Result A * list Spawn.

Definition ret {A} (a : A) : M A := fun log => (Ok a, log).

Definition throw {A} (e : Err) : M A := fun log => (Throw e, log).

Definition bind {A B} (m : M A) (k : A -> M B) : M B :=
  fun log =>
    match m log with
    | (Ok a, log') => k a log'
    | (Throw e, log') => (Throw e, log')
    end.

Definition spawn (w : World) (cmd : string) (args : list Value) : M Outcome :=
  fun log => (Ok (w cmd args), log ++ [(cmd, args)]).

(** [finish.then(_ => v)]. *)
Definition finish_then {A} (p : Outcome) (v : A) : Promise A :=
  if exit_ok p then Ok v else Throw ProcessFailed.

(** [await finish]. *)
Definition await {A} (p : Promise A) : M A :=
  match p with
  | Ok a => ret a
  | Throw e => throw e
  end.

(** [try { await finish } catch (e) { }]. *)
Definition await_ignoring {A} (p : Promise A) : M unit := ret tt.

End Proc.

Notation "'let*' x ':=' m 'in' k" := (Proc.bind m (fun x => k))
  (at level 10, x name, m at level 100, k at level 200).
Notation "'run' m 'in' k" := (Proc.bind m (fun _ => k))
  (at level 10, m at level 100, k at level 200).

(* ===================================================================== *)
(** * FFmpegUtil                                                          *)
(* ===================================================================== *)

Module FFmpegUtil.
Import JS Proc.

(** ** The caller's recording intent ([RecordingOptions], declared in
    [./types]), with the [scale] that [generateGIF] adds to it. The pixel
    coordinates, the frame rate, the duration and the scale factor are
    numbers. *)
Record Bounds : Type := {
  x : Num;
  y : Num;
  width : Num;
  height : Num
}.

Record RecordingOptions : Type := {
  bounds : Bounds;
  fps : Num;
  duration : option Num;
  audio : bool;
  file : string;
  ffmpegBinary : string;
  flags : option (gmap string Value);
  scale : option Num
}.

(** ** The host: [os.platform()], [os.tmpdir()], the process world and
    [Config.getFFmpegBinary()]. *)
Record Host : Type := {
  platform : string;
  tmpdir : string;
  world : World;
  getFFmpegBinary : option string
}.

(** [path.resolve(dir, name)] for an absolute, normalised [dir] without a
    trailing separator and a plain file name. *)
Definition path_resolve (h : Host) (dir name : string) : string :=
  dir +:+ (if String.eqb (platform h) "win32" then "\" else "/") +:+ name.

(** ** What [getInputDevices] returns. *)
Record ResolvedInput : Type := {
  resolution : option (Integral * Integral);
  in_video : Obj;
  in_audio : option Obj
}.

(** [static recordingArgs]. *)
Module recordingArgs.
Definition common : Obj :=
  [ ("threads", VInt 4); ("capture_cursor", VInt 1) ].
Definition audio : Obj :=
  [ ("b:a", VStr "384k"); ("c:a", VStr "aac"); ("ac", VInt 1); ("vbr", VInt 3) ].
Definition video : Obj :=
  [ ("preset", VStr "ultrafast"); ("crf", VInt 22); ("c:v", VStr "libx264") ].
End recordingArgs.

(** [customKeyOverride || key] on an optional string argument. *)
Definition key_or (customKeyOverride : option string) (key : string) : string :=
  match customKeyOverride with
  | Some k => if String.eqb k EmptyString then key else k
  | None => key
  end.

(** [private static get(src, key, target, customKeyOverride?)]. *)
Definition get (src : gmap string Value) (key : string) (target : Obj)
           (customKeyOverride : option string) : list Value :=
  [ VStr ("-" +:+ key);
    JS.or (field src (key_or customKeyOverride key)) (prop target key) ].

(** [private static getAll(src, target, keys = Object.keys(target), override?)]. *)
Definition getAll (src : gmap string Value) (target : Obj)
           (keys : option (list string))
           (override : option (string -> string)) : list Value :=
  fold_left
    (fun acc k =>
       acc ++ get src k target
                  (Some (match override with
                         | Some f => f k
                         | None => k
                         end)))
    (match keys with Some ks => ks | None => JS.keys target end)
    [].

(** [/\[(\d+)\]\s+Capture\s+Screen/i] *)
Definition screen_re : regex :=
  RCat [ RChr "["; RGroup (RPlus (RSet is_digit)); RChr "]";
         RPlus (RSet is_space); RLit "Capture";
         RPlus (RSet is_space); RLit "Screen" ].

(** [/\[(\d+)\]\s+Mac[^\n]*Microphone/i] *)
Definition microphone_re : regex :=
  RCat [ RChr "["; RGroup (RPlus (RSet is_digit)); RChr "]";
         RPlus (RSet is_space); RLit "Mac";
         RStar (RSet not_newline); RLit "Microphone" ].

(** [matched[1].toString()] *)
Definition group1 (m : option string) : M string :=
  match m with
  | Some s => ret s
  | None => throw (Error "TypeError")
  end.

(** [static async getMacInputDevices(opts)]. *)
Definition getMacInputDevices (h : Host) (opts : RecordingOptions) : M string :=
  let* proc := spawn (world h) (ffmpegBinary opts)
            [ VStr "-f"; VStr "avfoundation"; VStr "-list_devices"; VStr "true";
              VStr "-i"; VStr (dq +:+ dq) ] in
  run await_ignoring (finish_then proc tt) in
  let text := String.concat EmptyString (stderr proc) in
  match rsearch true screen_re text with
  | None => throw (Error "Cannot find screen recording device")
  | Some matchedIndex =>
      let* videoIndex := group1 matchedIndex in
      if negb (audio opts)
      then ret ("'" +:+ videoIndex +:+ ":none'")
      else
        match rsearch true microphone_re text with
        | None => throw (Error "Cannot find microphone recording device")
        | Some matchedAudioIndex =>
            let* audioIndex := group1 matchedAudioIndex in
            ret ("'" +:+ videoIndex +:+ ":" +:+ audioIndex +:+ "'")
        end
  end.

(** [`${parts[n]}`] on the result of [split]. *)
Definition show_part (parts : list string) (n : nat) : string :=
  match parts !! n with
  | Some s => s
  | None => "undefined"
  end.

(** The [data] listener of the geometry query: [/\s*,\s*/] splits the
    chunk and the third and fourth fields replace [w] and [h]. *)
Definition comma_re : regex :=
  RCat [ RStar (RSet is_space); RChr ","; RStar (RSet is_space) ].

Definition on_bounds_data (wh : Integral * Integral) (v : string)
  : Integral * Integral :=
  let parts := split false comma_re v in
  (parseInt (show_part parts 2), parseInt (show_part parts 3)).

(** [static async getInputDevices(opts)]; [None] is the [undefined] that
    falls out of the [switch] on an unrecognised platform. *)
Definition getInputDevices (h : Host) (opts : RecordingOptions)
  : M (option ResolvedInput) :=
  if String.eqb (platform h) "darwin" then
    let* proc := spawn (world h) "osascript"
              [ VStr "-e";
                VStr ("'tell application " +:+ dq +:+ "Finder" +:+ dq
                      +:+ " to get bounds of window of desktop'") ] in
    let wh := fold_left on_bounds_data (stdout proc) (IInt 0, IInt 0) in
    run await (finish_then proc tt) in
    let* i := getMacInputDevices h opts in
    ret (Some {| resolution := Some wh;
                 in_video := [ ("f", VStr "avfoundation"); ("i", VStr i) ];
                 in_audio := None |})
  else if String.eqb (platform h) "win32" then
    ret (Some {| resolution := None;
                 in_video :=
                   [ ("f", VStr "dshow");
                     ("i", VStr (if audio opts
                                 then "video=" +:+ dq +:+ "UScreenCapture" +:+ dq
                                      +:+ ":audio=" +:+ dq +:+ "Microphone" +:+ dq
                                 else "video=" +:+ dq +:+ "screen-capture-recorder"
                                      +:+ dq)) ];
                 in_audio := None |})
  else if String.eqb (platform h) "linux" then
    ret (Some {| resolution := None;
                 in_video := [ ("f", VStr "x11grab"); ("i", VStr ":0.0") ];
                 in_audio :=
                   if negb (audio opts) then None
                   else Some [ ("f", VStr "pulse"); ("i", VStr "default") ] |})
  else ret None.

(** [opts.duration] as a condition: present and truthy. *)
Definition requested (d : option Num) : bool :=
  match d with
  | Some n => truthy_num n
  | None => false
  end.

Definition audio_ (k : string) : string := "audio_" +:+ k.

(** The filter graph [vf] of [launchProcess]. *)
Definition launchProcess_vf (opts : RecordingOptions) (input : ResolvedInput)
  : string :=
  let vf :=
    "crop=" +:+ to_string (width (bounds opts))
    +:+ ":" +:+ to_string (height (bounds opts))
    +:+ ":" +:+ to_string (x (bounds opts))
    +:+ ":" +:+ to_string (y (bounds opts)) in
  match resolution input with
  | Some (w, h) =>
      "scale=" +:+ show_int w +:+ ":" +:+ show_int h +:+ ":flags=lanczos," +:+ vf
  | None => vf
  end.

(** The argument array [args] that [launchProcess] builds between its
    device resolution and its spawn. *)
Definition launchProcess_args (opts : RecordingOptions) (input : ResolvedInput)
  : list Value :=
  let custom := default ∅ (flags opts) in
  let getAll := getAll custom in
  let args :=
    getAll recordingArgs.common None None
    ++ [ VStr "-r"; VStr (to_string (fps opts));
         VStr "-video_size";
         VStr (to_string (width (bounds opts)) +:+ "x"
               +:+ to_string (height (bounds opts))) ]
    ++ getAll (in_video input) (Some ["f"]) None
    ++ getAll (in_video input) (Some ["i"]) None in
  let args :=
    if requested (duration opts)
    then [ VStr "-t"; VStr (to_string (default NaN (duration opts))) ] ++ args
    else args in
  let args :=
    if audio opts
    then
      (match in_audio input with
       | Some input_audio =>
           args ++ getAll input_audio (Some ["f"]) (Some audio_)
                ++ getAll input_audio (Some ["i"]) (Some audio_)
       | None => args
       end) ++ getAll recordingArgs.audio None None
    else args in
  args ++ getAll recordingArgs.video None None
       ++ [ VStr "-vf"; VStr ("'" +:+ launchProcess_vf opts input +:+ "'") ].

(** [static async launchProcess(opts)]: the returned [finish] promise. *)
Definition launchProcess (h : Host) (opts : RecordingOptions)
  : M (Promise RecordingOptions) :=
  let* input := getInputDevices h opts in
  match input with
  | None => throw (Error "Unsupported platform")
  | Some input =>
      let* proc := spawn (world h) (ffmpegBinary opts)
                (launchProcess_args opts input ++ [ VStr (file opts) ]) in
      ret (finish_then proc opts)
  end.

(** The filter prefix [vf] of [generateGIF]. *)
Definition generateGIF_vf (opts : RecordingOptions) : string :=
  let vf := "fps=" +:+ to_string (fps opts) in
  let vf :=
    match scale opts with
    | Some s =>
        if truthy_num s
        then vf +:+ ",scale=" +:+ show_int (trunc_mul (width (bounds opts)) s)
                +:+ ":" +:+ show_int (trunc_mul (height (bounds opts)) s)
        else vf +:+ ",scale=" +:+ to_string (width (bounds opts))
                +:+ ":" +:+ to_string (height (bounds opts))
    | None =>
        vf +:+ ",scale=" +:+ to_string (width (bounds opts))
           +:+ ":" +:+ to_string (height (bounds opts))
    end in
  vf +:+ ":flags=lanczos".

Definition paletteFile (h : Host) : string :=
  path_resolve h (tmpdir h) "palette-gen.png".

Definition final (opts : RecordingOptions) : string :=
  replace ".mp4" ".gif" (file opts).

Definition palettegen_args (h : Host) (opts : RecordingOptions) : list Value :=
  [ VStr "-i"; VStr (file opts);
    VStr "-vf"; VStr (generateGIF_vf opts +:+ ",palettegen=stats_mode=diff");
    VStr "-y"; VStr (paletteFile h) ].

Definition paletteuse_args (h : Host) (opts : RecordingOptions) : list Value :=
  [ VStr "-i"; VStr (file opts);
    VStr "-i"; VStr (paletteFile h);
    VStr "-lavfi";
    VStr (dq +:+ generateGIF_vf opts
          +:+ ",paletteuse=dither=bayer:bayer_scale=5:diff_mode=rectangle"
          +:+ dq);
    VStr "-y"; VStr (final opts) ].

(** [static async generateGIF(opts)]: [None] is the bare [return], [Some]
    carries the returned [finish] promise. *)
Definition generateGIF (h : Host) (opts : RecordingOptions)
  : M (option (Promise string)) :=
  match getFFmpegBinary h with
  | None => ret None
  | Some ffmpeg =>
      if String.eqb ffmpeg EmptyString then ret None
      else
        let* palette := spawn (world h) ffmpeg (palettegen_args h opts) in
        run await (finish_then palette tt) in
        let* proc := spawn (world h) ffmpeg (paletteuse_args h opts) in
        ret (Some (finish_then proc (final opts)))
  end.

End FFmpegUtil.

(* ===================================================================== *)
(** * The vocabulary of the specification                                 *)
(* ===================================================================== *)

Module Spec.
Import JS Proc FFmpegUtil.

(** The merge rule in the specification's words: the override value at
    the key if present and truthy, else the table default. *)
Definition effective (overrides : gmap string Value) (k : string) (dflt : Value)
  : Value :=
  match overrides !! k with
  | Some v => if truthy v then v else dflt
  | None => dflt
  end.

(** The flag/value pairs a default group contributes under the merge rule. *)
Definition merged (overrides : gmap string Value) (group : Obj) : list Value :=
  flat_map (fun '(k, d) => [ VStr ("-" +:+ k); effective overrides k d ]) group.

Definition default_groups : list Obj :=
  [ recordingArgs.common; recordingArgs.audio; recordingArgs.video ].

(** The override values the specification singles out as ignored. *)
Definition falsy_overrides : list Value :=
  [ VInt 0; VStr EmptyString; VBool false ].

(** The encoder's command line: the tokens handed to the spawn. *)
Definition tokens (opts : RecordingOptions) (input : ResolvedInput) : list Value :=
  launchProcess_args opts input ++ [ VStr (file opts) ].

(** The tokens in flag position: every other token, the trailing path
    left out. *)
Fixpoint flag_names (l : list Value) : list Value :=
  match l with
  | fl :: _ :: rest => fl :: flag_names rest
  | _ => []
  end.

(** [a] immediately followed by [b]. *)
Definition adjacent (a b : Value) (l : list Value) : Prop :=
  exists l1 l2, l = l1 ++ a :: b :: l2.

(** [l] ends with the tokens [e]. *)
Definition ends_in (e l : list Value) : Prop := exists l1, l = l1 ++ e.

(** The groups of the command line, in the order of assembly: the
    duration pair, the common group with frame rate, geometry and video
    device, the audio device and audio group, the video group with the
    filter graph. *)
Definition duration_part (opts : RecordingOptions) : list Value :=
  if requested (duration opts)
  then [ VStr "-t"; VStr (to_string (default NaN (duration opts))) ]
  else [].

Definition video_part (opts : RecordingOptions) (input : ResolvedInput)
  : list Value :=
  let custom := default ∅ (flags opts) in
  merged custom recordingArgs.common
  ++ [ VStr "-r"; VStr (to_string (fps opts));
       VStr "-video_size";
       VStr (to_string (width (bounds opts)) +:+ "x"
             +:+ to_string (height (bounds opts)));
       VStr "-f"; effective custom "f" (prop (in_video input) "f");
       VStr "-i"; effective custom "i" (prop (in_video input) "i") ].

Definition audio_device_part (opts : RecordingOptions) (input : ResolvedInput)
  : list Value :=
  let custom := default ∅ (flags opts) in
  match in_audio input with
  | Some dev =>
      [ VStr "-f"; effective custom "audio_f" (prop dev "f");
        VStr "-i"; effective custom "audio_i" (prop dev "i") ]
  | None => []
  end.

Definition audio_part (opts : RecordingOptions) (input : ResolvedInput)
  : list Value :=
  if audio opts
  then audio_device_part opts input
       ++ merged (default ∅ (flags opts)) recordingArgs.audio
  else [].

Definition tail_part (opts : RecordingOptions) (input : ResolvedInput)
  : list Value :=
  merged (default ∅ (flags opts)) recordingArgs.video
  ++ [ VStr "-vf"; VStr ("'" +:+ launchProcess_vf opts input +:+ "'") ].

(** ** Device entries of the discovery text

    A device entry, read without the pattern: an opening bracket, one or
    more digits (the index), a closing bracket, one or more blanks, and the
    words of the device name, compared without regard to case. *)

Fixpoint take_while (p : ascii -> bool) (s : string) : string :=
  match s with
  | String a s' => if p a then String a (take_while p s') else EmptyString
  | EmptyString => EmptyString
  end.

Fixpoint drop_while (p : ascii -> bool) (s : string) : string :=
  match s with
  | String a s' => if p a then drop_while p s' else s
  | EmptyString => EmptyString
  end.

(** [s] without the leading word [w], letters compared without case. *)
Fixpoint strip_word (w s : string) : option string :=
  match w with
  | EmptyString => Some s
  | String c w' =>
      match s with
      | String a s' =>
          if Ascii.eqb (upper c) (upper a) then strip_word w' s' else None
      | EmptyString => None
      end
  end.

(** [s] without the leading character [c]. *)
Definition strip_char (c : ascii) (s : string) : option string :=
  match s with
  | String a s' => if Ascii.eqb c a then Some s' else None
  | EmptyString => None
  end.

(** [s] without its leading run of characters in [p], which must not be
    empty. *)
Definition strip_run (p : ascii -> bool) (s : string) : option string :=
  match s with
  | String a s' => if p a then Some (drop_while p s') else None
  | EmptyString => None
  end.

(** The bracketed index [s] starts with, and what follows the bracket. *)
Definition bracketed_index (s : string) : option (string * string) :=
  s1 ← strip_char "[" s;
  s2 ← strip_run is_digit s1;
  s3 ← strip_char "]" s2;
  Some (take_while is_digit s1, s3).

(** The index of the Capture Screen entry that [s] starts with. *)
Definition screen_entry_at (s : string) : option string :=
  '(n, s) ← bracketed_index s;
  s ← strip_run is_space s;
  s ← strip_word "Capture" s;
  s ← strip_run is_space s;
  _ ← strip_word "Screen" s;
  Some n.

(** The indices of the entries found by [entry_at] in [text], from left to
    right. *)
Fixpoint entries (entry_at : string -> option string) (text : string)
  : list string :=
  let here := match entry_at text with Some n => [n] | None => [] end in
  match text with
  | String _ text' => here ++ entries entry_at text'
  | EmptyString => here
  end.

(** The list-devices call of [getMacInputDevices] and the text it scans. *)
Definition list_devices (opts : RecordingOptions) : Spawn :=
  (ffmpegBinary opts,
   [ VStr "-f"; VStr "avfoundation"; VStr "-list_devices"; VStr "true";
     VStr "-i"; VStr (dq +:+ dq) ]).

Definition discovery_text (h : Host) (opts : RecordingOptions) : string :=
  String.concat EmptyString
    (stderr (world h (fst (list_devices opts)) (snd (list_devices opts)))).

(** A continuation of the matcher that cannot go on from a character in
    [p]: after a greedy run of [p] it is tried once, at the end of the run. *)
Definition stops_at {R : Type} (p : ascii -> bool) (k : @Cont R) : Prop :=
  forall a s cap, p a = true -> k (String a s) cap = None.

(** ** The transcode *)

(** The output path in the specification's words: the recording's path
    with its [.mp4] suffix replaced by [.gif]. *)
Definition gif_suffixed (p : string) : string :=
  substring 0 (String.length p - String.length ".mp4") p +:+ ".gif".

(** [s.startsWith(p)]. *)
Definition starts_with (p s : string) : bool :=
  match strip_prefix p s with
  | Some _ => true
  | None => false
  end.

(** The two filter tokens of a transcode: the value of [-vf] in the
    palette-generation call and the value of [-lavfi] in the palette-use
    call. *)
Definition palettegen_filter (opts : RecordingOptions) : string :=
  generateGIF_vf opts +:+ ",palettegen=stats_mode=diff".

Definition paletteuse_filter (opts : RecordingOptions) : string :=
  dq +:+ generateGIF_vf opts
     +:+ ",paletteuse=dither=bayer:bayer_scale=5:diff_mode=rectangle" +:+ dq.

(** The target size of the scale stage, as text. *)
Definition target_size (opts : RecordingOptions) : string * string :=
  match scale opts with
  | Some s =>
      if truthy_num s
      then (show_int (trunc_mul (width (bounds opts)) s),
            show_int (trunc_mul (height (bounds opts)) s))
      else (to_string (width (bounds opts)), to_string (height (bounds opts)))
  | None => (to_string (width (bounds opts)), to_string (height (bounds opts)))
  end.

(** The processes a transcode spawns with the encoder [ffmpeg]: the
    palette-use call only after the palette-generation call succeeded. *)
Definition transcode_spawns (h : Host) (ffmpeg : string) (opts : RecordingOptions)
  : list Spawn :=
  (ffmpeg, palettegen_args h opts)
  :: (if exit_ok (world h ffmpeg (palettegen_args h opts))
      then [ (ffmpeg, paletteuse_args h opts) ]
      else []).

(** ** The processes of a recording *)

(** The desktop-geometry query of [getInputDevices] on darwin. *)
Definition geometry_query : Spawn :=
  ("osascript",
   [ VStr "-e";
     VStr ("'tell application " +:+ dq +:+ "Finder" +:+ dq
           +:+ " to get bounds of window of desktop'") ]).

(** The encoder call of a recording, for the resolved [input]. *)
Definition recording (opts : RecordingOptions) (input : ResolvedInput) : Spawn :=
  (ffmpegBinary opts, tokens opts input).

(** The platforms [getInputDevices] has a case for. *)
Definition supported_platforms : list string := [ "darwin"; "win32"; "linux" ].

(** ** The flags of a recording *)

(** The names of the flags of a recording's command line, in order: the
    duration flag when a duration is requested, the common group with frame
    rate, geometry and video device, the audio device when one was resolved
    and the audio group when audio is requested, the video group and the
    filter graph. *)
Definition flag_order (opts : RecordingOptions) (input : ResolvedInput)
  : list string :=
  (if requested (duration opts) then [ "-t" ] else [])
  ++ [ "-threads"; "-capture_cursor"; "-r"; "-video_size"; "-f"; "-i" ]
  ++ (if audio opts
      then (match in_audio input with
            | Some _ => [ "-f"; "-i" ]
            | None => []
            end) ++ [ "-b:a"; "-c:a"; "-ac"; "-vbr" ]
      else [])
  ++ [ "-preset"; "-crf"; "-c:v"; "-vf" ].

(** The keys under which a recording consults the override mapping. *)
Definition consulted_keys : list string :=
  [ "threads"; "capture_cursor"; "f"; "i"; "audio_f"; "audio_i";
    "b:a"; "c:a"; "ac"; "vbr"; "preset"; "crf"; "c:v" ].

(** Whether the word [w] occurs, letters compared without case, on the rest
    of the line that [s] starts. *)
Fixpoint on_line (w s : string) : bool :=
  match strip_word w s with
  | Some _ => true
  | None =>
      match s with
      | String a s' => not_newline a && on_line w s'
      | EmptyString => false
      end
  end.

(** The index of the microphone entry that [s] starts with: the device
    name begins with [Mac] and has [Microphone] later on its line. *)
Definition microphone_entry_at (s : string) : option string :=
  '(n, s) ← bracketed_index s;
  s ← strip_run is_space s;
  s ← strip_word "Mac" s;
  if on_line "Microphone" s then Some n else None.

(** The selector [getMacInputDevices] builds from the first screen entry
    and, when audio is requested, the first microphone entry of [text]. *)
Definition selector (audio : bool) (text : string) : Result string :=
  match head (entries screen_entry_at text) with
  | None => Throw (Error "Cannot find screen recording device")
  | Some v =>
      if audio
      then match head (entries microphone_entry_at text) with
           | None => Throw (Error "Cannot find microphone recording device")
           | Some a => Ok ("'" +:+ v +:+ ":" +:+ a +:+ "'")
           end
      else Ok ("'" +:+ v +:+ ":none'")
  end.

(** The screen size [getInputDevices] reads from the geometry query on
    darwin: [0, 0] to begin with, then what each chunk of output gives. *)
Definition screen_size (h : Host) : Integral * Integral :=
  fold_left on_bounds_data
            (stdout (world h (fst geometry_query) (snd geometry_query)))
            (IInt 0, IInt 0).

(** What [getInputDevices] returns on darwin, for the screen [size] and the
    device selector [i]. *)
Definition darwin_input (size : Integral * Integral) (i : string) : ResolvedInput :=
  {| resolution := Some size;
     in_video := [ ("f", VStr "avfoundation"); ("i", VStr i) ];
     in_audio := None |}.

(** The crop expression of the capture region. *)
Definition crop (opts : RecordingOptions) : string :=
  "crop=" +:+ to_string (width (bounds opts))
  +:+ ":" +:+ to_string (height (bounds opts))
  +:+ ":" +:+ to_string (x (bounds opts))
  +:+ ":" +:+ to_string (y (bounds opts)).

(** ** The desktop bounds *)

(** What the geometry query prints for the desktop bounds: four integers
    separated by a comma and a blank, and a line feed. *)
Definition bounds_line (x y w h : Z) : string :=
  decimal x +:+ ", " +:+ decimal y +:+ ", " +:+ decimal w +:+ ", " +:+ decimal h
  +:+ lf.

(** Every character of [s] is in [p]. *)
Fixpoint all_chars (p : ascii -> bool) (s : string) : bool :=
  match s with
  | String a s' => p a && all_chars p s'
  | EmptyString => true
  end.

Definition not_comma (a : ascii) : bool := negb (Ascii.eqb "," a).

(** The characters of a field between separators: no blank, no comma. *)
Definition field_char (a : ascii) : bool := negb (is_space a) && not_comma a.

(** The value of a decimal numeral read after digits worth [acc]. *)
Fixpoint uint_value (acc : Z) (d : Decimal.uint) : Z :=
  match d with
  | Decimal.Nil => acc
  | Decimal.D0 d => uint_value (10 * acc + 0) d
  | Decimal.D1 d => uint_value (10 * acc + 1) d
  | Decimal.D2 d => uint_value (10 * acc + 2) d
  | Decimal.D3 d => uint_value (10 * acc + 3) d
  | Decimal.D4 d => uint_value (10 * acc + 4) d
  | Decimal.D5 d => uint_value (10 * acc + 5) d
  | Decimal.D6 d => uint_value (10 * acc + 6) d
  | Decimal.D7 d => uint_value (10 * acc + 7) d
  | Decimal.D8 d => uint_value (10 * acc + 8) d
  | Decimal.D9 d => uint_value (10 * acc + 9) d
  end.

(** [s] does not go on with a digit. *)
Definition no_digit_ahead (s : string) : Prop :=
  match s with
  | String a _ => is_digit a = false
  | EmptyString => True
  end.

End Spec.

(* ===================================================================== *)
(** * Scenarios                                                           *)
(* ===================================================================== *)

(** Concrete intents, hosts and discovery texts, used to run the
    definitions above. *)
Module Scenarios.
Import JS Proc FFmpegUtil Spec.

(** A world in which every process succeeds and prints nothing. *)
Definition quiet_world : World :=
  fun _ _ => {| exit_ok := true; stdout := []; stderr := [] |}.

Definition host_on (p : string) (w : World) : Host :=
  {| platform := p; tmpdir := "/tmp"; world := w;
     getFFmpegBinary := Some "ffmpeg" |}.

Definition opts_800x600 : RecordingOptions :=
  {| bounds := {| x := Fin 0; y := Fin 0; width := Fin 800; height := Fin 600 |};
     fps := Fin 30; duration := None; audio := false;
     file := "out.mp4"; ffmpegBinary := "ffmpeg";
     flags := None; scale := None |}.

Definition with_duration (d : option Num) (o : RecordingOptions) : RecordingOptions :=
  {| bounds := bounds o; fps := fps o; duration := d; audio := audio o;
     file := file o; ffmpegBinary := ffmpegBinary o;
     flags := flags o; scale := scale o |}.

(** What [getInputDevices] returns on win32. *)
Definition win32_input_of (opts : RecordingOptions) : ResolvedInput :=
  {| resolution := None;
     in_video :=
       [ ("f", VStr "dshow");
         ("i", VStr (if audio opts
                     then "video=" +:+ dq +:+ "UScreenCapture" +:+ dq
                          +:+ ":audio=" +:+ dq +:+ "Microphone" +:+ dq
                     else "video=" +:+ dq +:+ "screen-capture-recorder" +:+ dq)) ];
     in_audio := None |}.

(** The command line of the 800x600 scenario on win32, for the
    destination [path]. *)
Definition win32_tokens_800x600 (path : string) : list Value :=
  [ VStr "-threads"; VInt 4; VStr "-capture_cursor"; VInt 1;
    VStr "-r"; VStr "30"; VStr "-video_size"; VStr "800x600";
    VStr "-f"; VStr "dshow";
    VStr "-i"; VStr ("video=" +:+ dq +:+ "screen-capture-recorder" +:+ dq);
    VStr "-preset"; VStr "ultrafast"; VStr "-crf"; VInt 22;
    VStr "-c:v"; VStr "libx264";
    VStr "-vf"; VStr "'crop=800:600:0:0'"; VStr path ].

Definition win32_input : ResolvedInput := win32_input_of opts_800x600.

Definition with_audio (a : bool) (o : RecordingOptions) : RecordingOptions :=
  {| bounds := bounds o; fps := fps o; duration := duration o; audio := a;
     file := file o; ffmpegBinary := ffmpegBinary o;
     flags := flags o; scale := scale o |}.

(** What [getInputDevices] returns on linux when audio is requested. *)
Definition linux_audio_input : ResolvedInput :=
  {| resolution := None;
     in_video := [ ("f", VStr "x11grab"); ("i", VStr ":0.0") ];
     in_audio := Some [ ("f", VStr "pulse"); ("i", VStr "default") ] |}.

(** A world in which every process fails and writes [text] to its
    diagnostic stream, as the encoder does in list-devices mode. *)
Definition listing_world (text : string) : World :=
  fun _ _ => {| exit_ok := false; stdout := []; stderr := [text] |}.

(** The device list of a host with two displays and no microphone. *)
Definition two_screens : string :=
  "[0] FaceTime HD Camera" +:+ lf
  +:+ "[1] Capture screen 0" +:+ lf
  +:+ "[2] Capture screen 1" +:+ lf.

Definition with_scale (s : option Num) (o : RecordingOptions) : RecordingOptions :=
  {| bounds := bounds o; fps := fps o; duration := duration o; audio := audio o;
     file := file o; ffmpegBinary := ffmpegBinary o;
     flags := flags o; scale := s |}.

Definition with_file (f : string) (o : RecordingOptions) : RecordingOptions :=
  {| bounds := bounds o; fps := fps o; duration := duration o; audio := audio o;
     file := f; ffmpegBinary := ffmpegBinary o;
     flags := flags o; scale := scale o |}.

(** A host whose configuration resolves the encoder binary to [b]. *)
Definition with_encoder (b : option string) (h : Host) : Host :=
  {| platform := platform h; tmpdir := tmpdir h; world := world h;
     getFFmpegBinary := b |}.

(** A host whose temporary directory is [t]. *)
Definition with_tmpdir (t : string) (h : Host) : Host :=
  {| platform := platform h; tmpdir := t; world := world h;
     getFFmpegBinary := getFFmpegBinary h |}.

Definition with_bounds (b : Bounds) (o : RecordingOptions) : RecordingOptions :=
  {| bounds := b; fps := fps o; duration := duration o; audio := audio o;
     file := file o; ffmpegBinary := ffmpegBinary o;
     flags := flags o; scale := scale o |}.

(** A 1440x720 region, transcoded at the scale factor [0.7]. *)
Definition opts_1440x720_at_07 : RecordingOptions :=
  with_scale (Some (lit (7 # 10)))
    (with_bounds {| x := Fin 0; y := Fin 0; width := Fin 1440; height := Fin 720 |}
                 opts_800x600).

(** A recording kept in a directory whose name contains [.mp4]. *)
Definition nested_recording : string := "/tmp/shots.mp4/demo.mp4".

Definition with_flags (f : option (gmap string Value)) (o : RecordingOptions)
  : RecordingOptions :=
  {| bounds := bounds o; fps := fps o; duration := duration o; audio := audio o;
     file := file o; ffmpegBinary := ffmpegBinary o;
     flags := f; scale := scale o |}.

Definition with_binary (b : string) (o : RecordingOptions) : RecordingOptions :=
  {| bounds := bounds o; fps := fps o; duration := duration o; audio := audio o;
     file := file o; ffmpegBinary := b;
     flags := flags o; scale := scale o |}.

(** A world in which every process fails and prints nothing. *)
Definition failing_world : World :=
  fun _ _ => {| exit_ok := false; stdout := []; stderr := [] |}.

(** The device list the encoder prints on a host with a camera, a screen
    and a built-in microphone. *)
Definition mac_listing : string :=
  "[AVFoundation indev @ 0x7f8] AVFoundation video devices:" +:+ lf
  +:+ "[AVFoundation indev @ 0x7f8] [0] FaceTime HD Camera" +:+ lf
  +:+ "[AVFoundation indev @ 0x7f8] [1] Capture screen 0" +:+ lf
  +:+ "[AVFoundation indev @ 0x7f8] AVFoundation audio devices:" +:+ lf
  +:+ "[AVFoundation indev @ 0x7f8] [0] MacBook Pro Microphone" +:+ lf.

(** The same list on a host without a microphone. *)
Definition mac_listing_without_microphone : string :=
  "[AVFoundation indev @ 0x7f8] AVFoundation video devices:" +:+ lf
  +:+ "[AVFoundation indev @ 0x7f8] [0] FaceTime HD Camera" +:+ lf
  +:+ "[AVFoundation indev @ 0x7f8] [1] Capture screen 0" +:+ lf
  +:+ "[AVFoundation indev @ 0x7f8] AVFoundation audio devices:" +:+ lf.

(** A darwin world: the geometry query prints the desktop bounds in
    [chunks], the encoder in list-devices mode fails after writing
    [listing] to its diagnostic stream, and any other process succeeds. *)
Definition darwin_world (chunks : list string) (listing : string) : World :=
  fun cmd args =>
    if String.eqb cmd "osascript"
    then {| exit_ok := true; stdout := chunks; stderr := [] |}
    else match args with
         | VStr "-f" :: VStr "avfoundation" :: VStr "-list_devices" :: _ =>
             {| exit_ok := false; stdout := []; stderr := [ listing ] |}
         | _ => {| exit_ok := true; stdout := []; stderr := [] |}
         end.

(** The command line of the 800x600 scenario on linux with audio. *)
Definition linux_audio_tokens_800x600 : list Value :=
  [ VStr "-threads"; VInt 4; VStr "-capture_cursor"; VInt 1;
    VStr "-r"; VStr "30"; VStr "-video_size"; VStr "800x600";
    VStr "-f"; VStr "x11grab"; VStr "-i"; VStr ":0.0";
    VStr "-f"; VStr "pulse"; VStr "-i"; VStr "default";
    VStr "-b:a"; VStr "384k"; VStr "-c:a"; VStr "aac";
    VStr "-ac"; VInt 1; VStr "-vbr"; VInt 3;
    VStr "-preset"; VStr "ultrafast"; VStr "-crf"; VInt 22;
    VStr "-c:v"; VStr "libx264";
    VStr "-vf"; VStr "'crop=800:600:0:0'"; VStr "out.mp4" ].

End Scenarios.

(* ===================================================================== *)
(** * Theorems                                                            *)
(* ===================================================================== *)

Module FFmpegSpec.
Import JS Proc FFmpegUtil Spec Scenarios.

(** ** The merge rule *)

Lemma or_lookup (src : gmap string Value) (k : string) (d : Value) :
  JS.or (field src k) d = effective src k d.
Proof.
  unfold JS.or, field, effective.
  destruct (src !! k) as [v|]; reflexivity.
Qed.

Lemma get_effective (src : gmap string Value) (k : string) (target : Obj)
      (alt : option string) :
  get src k target alt
  = [ VStr ("-" +:+ k); effective src (key_or alt k) (prop target k) ].
Proof. unfold get. now rewrite or_lookup. Qed.

Lemma effective_falsy (src : gmap string Value) (k : string) (v d : Value) :
  src !! k = Some v -> truthy v = false -> effective src k d = d.
Proof. intros Hk Hv. unfold effective. now rewrite Hk, Hv. Qed.

Lemma getAll_cons (src : gmap string Value) (target : Obj) (k : string)
      (ks : list string) (override : option (string -> string)) :
  getAll src target (Some (k :: ks)) override
  = get src k target (Some (match override with Some f => f k | None => k end))
    ++ getAll src target (Some ks) override.
Proof.
  unfold getAll. cbn [fold_left app].
  generalize (get src k target
                (Some (match override with Some f => f k | None => k end))).
  intros acc. revert acc.
  induction ks as [|k' ks IH]; intros acc; cbn [fold_left].
  - now rewrite app_nil_r.
  - rewrite IH, (IH ([] ++ _)). cbn [app]. now rewrite app_assoc.
Qed.

Lemma getAll_nil (src : gmap string Value) (target : Obj)
      (override : option (string -> string)) :
  getAll src target (Some []) override = [].
Proof. reflexivity. Qed.

Lemma getAll_keys (src : gmap string Value) (target : Obj)
      (override : option (string -> string)) :
  getAll src target None override
  = getAll src target (Some (JS.keys target)) override.
Proof. reflexivity. Qed.

Lemma getAll_group (custom : gmap string Value) (group : Obj) :
  group ∈ default_groups -> getAll custom group None None = merged custom group.
Proof.
  intros Hg. unfold default_groups in Hg.
  rewrite getAll_keys.
  repeat (apply elem_of_cons in Hg as [-> | Hg]);
    [ | | | now apply elem_of_nil in Hg ];
    cbn [JS.keys map fst recordingArgs.common recordingArgs.audio
         recordingArgs.video];
    rewrite ?getAll_cons, getAll_nil, ?get_effective; reflexivity.
Qed.

Lemma prop_group (group : Obj) (k : string) (d : Value) :
  group ∈ default_groups -> (k, d) ∈ group -> prop group k = d.
Proof.
  intros Hg Hk. unfold default_groups in Hg.
  repeat (apply elem_of_cons in Hg as [-> | Hg]);
    [ | | | now apply elem_of_nil in Hg ];
    repeat (apply elem_of_cons in Hk as [[= -> ->] | Hk]);
    try reflexivity; now apply elem_of_nil in Hk.
Qed.

(** C2. For every flag name [k] of a default group (common, audio, video)
    and every override mapping, the value emitted after [-k] is the
    override value at [k] (or at the substituted alternate key) when that
    value is present and truthy, and the table default otherwise; the whole
    group is emitted under this rule, and an override of [0], the empty
    string or [false] leaves the default in place. *)
Theorem falsy_override_falls_back
        (custom : gmap string Value) (group : Obj) (k : string) (d : Value) :
  group ∈ default_groups ->
  (k, d) ∈ group ->
  (forall alt : option string,
      get custom k group alt
      = [ VStr ("-" +:+ k); effective custom (key_or alt k) d ])
  /\ getAll custom group None None = merged custom group
  /\ (forall v, custom !! k = Some v -> v ∈ falsy_overrides ->
                get custom k group None = [ VStr ("-" +:+ k); d ]).
Proof.
  intros Hg Hk. split; [| split].
  - intros alt. now rewrite get_effective, (prop_group group k d).
  - now apply getAll_group.
  - intros v Hv Hf.
    rewrite get_effective, (prop_group group k d) by assumption.
    cbn [key_or]. rewrite (effective_falsy custom k v d); [reflexivity | assumption |].
    unfold falsy_overrides in Hf.
    repeat (apply elem_of_cons in Hf as [-> | Hf]); try reflexivity.
    now apply elem_of_nil in Hf.
Qed.

Lemma falsy_override_falls_back_witness :
  get {[ "crf" := VInt 0 ]} "crf" recordingArgs.video None
  = [ VStr "-crf"; VInt 22 ].
Proof.
  refine (proj2 (proj2 (falsy_override_falls_back
                          {[ "crf" := VInt 0 ]} recordingArgs.video
                          "crf" (VInt 22) _ _)) (VInt 0) _ _).
  - unfold default_groups. repeat constructor.
  - unfold recordingArgs.video. repeat constructor.
  - reflexivity.
  - unfold falsy_overrides. repeat constructor.
Defined.

(** ** The shape of the recording command line *)

Lemma launchProcess_args_shape (opts : RecordingOptions) (input : ResolvedInput) :
  launchProcess_args opts input
  = duration_part opts ++ video_part opts input
    ++ audio_part opts input ++ tail_part opts input.
Proof.
  unfold launchProcess_args, duration_part, video_part, audio_part,
    audio_device_part, tail_part.
  rewrite !getAll_group by (unfold default_groups; set_solver).
  destruct (requested (duration opts)), (audio opts), (in_audio input);
    rewrite !getAll_cons, !getAll_nil, !get_effective;
    unfold merged, recordingArgs.common, recordingArgs.audio, recordingArgs.video;
    cbn [flat_map app]; reflexivity.
Qed.

Lemma tokens_shape (opts : RecordingOptions) (input : ResolvedInput) :
  tokens opts input
  = duration_part opts
    ++ (video_part opts input ++ audio_part opts input
        ++ tail_part opts input ++ [ VStr (file opts) ]).
Proof.
  unfold tokens. rewrite launchProcess_args_shape.
  now rewrite <- !app_assoc.
Qed.

(** Unfolds the groups of a command line into its explicit token list. *)
Ltac explicit_tokens :=
  unfold video_part, audio_part, audio_device_part, tail_part, merged,
    recordingArgs.common, recordingArgs.audio, recordingArgs.video;
  cbn [flat_map app String.append].

(** Closes [v ∉ l] for a token [v] and an explicit list [l] of other tokens. *)
Ltac not_among :=
  rewrite ?not_elem_of_cons;
  repeat match goal with
         | |- _ /\ _ => split
         | |- _ <> _ => discriminate
         | |- _ ∉ [] => apply not_elem_of_nil
         end.

Lemma no_duration_flag_after (opts : RecordingOptions) (input : ResolvedInput) :
  VStr "-t"
  ∉ flag_names (video_part opts input ++ audio_part opts input
                ++ tail_part opts input ++ [ VStr (file opts) ]).
Proof.
  explicit_tokens.
  destruct (audio opts), (in_audio input);
    cbn [flat_map app flag_names]; not_among.
Qed.

(** C3. When a duration is requested (present and truthy, the test the
    code makes), the command line begins with the pair [-t <duration>], the
    duration printed as the template literal prints it, and no further
    duration flag follows it; when none is requested, no token in flag
    position is the duration flag. *)
Theorem duration_flag_first (opts : RecordingOptions) (input : ResolvedInput) :
  (forall d : Num,
      duration opts = Some d -> truthy_num d = true ->
      exists rest,
        tokens opts input = VStr "-t" :: VStr (to_string d) :: rest
        /\ VStr "-t" ∉ flag_names rest)
  /\ (requested (duration opts) = false ->
      VStr "-t" ∉ flag_names (tokens opts input)).
Proof.
  split.
  - intros d Hd Ht.
    eexists. split.
    + rewrite tokens_shape. unfold duration_part, requested.
      rewrite Hd, Ht. cbn [default app]. reflexivity.
    + apply no_duration_flag_after.
  - intros Hno. rewrite tokens_shape. unfold duration_part.
    rewrite Hno. cbn [app]. apply no_duration_flag_after.
Qed.

Lemma duration_flag_first_witness :
  exists rest,
    tokens (with_duration (Some (Fin 10)) opts_800x600) win32_input
    = VStr "-t" :: VStr "10" :: rest
    /\ VStr "-t" ∉ flag_names rest.
Proof.
  apply (proj1 (duration_flag_first
                  (with_duration (Some (Fin 10)) opts_800x600) win32_input)
               (Fin 10));
    reflexivity.
Defined.

(** ** Recording on the DirectShow-style platform *)

Lemma getInputDevices_win32 (h : Host) (opts : RecordingOptions) (log : list Spawn) :
  platform h = "win32" ->
  getInputDevices h opts log = (Ok (Some (win32_input_of opts)), log).
Proof. intros Hp. unfold getInputDevices. rewrite Hp. reflexivity. Qed.

Lemma win32_tokens (opts : RecordingOptions) :
  bounds opts
  = {| x := Fin 0; y := Fin 0; width := Fin 800; height := Fin 600 |} ->
  fps opts = Fin 30 ->
  audio opts = false ->
  duration opts = None ->
  flags opts = None ->
  tokens opts (win32_input_of opts) = win32_tokens_800x600 (file opts).
Proof.
  destruct opts as [b f d a fl bin fg sc]. cbn.
  intros -> -> -> -> ->. vm_compute. reflexivity.
Qed.

Lemma launchProcess_spawns (h : Host) (opts : RecordingOptions)
      (input : ResolvedInput) (log log' : list Spawn) :
  getInputDevices h opts log = (Ok (Some input), log') ->
  launchProcess h opts log
  = (Ok (finish_then (world h (ffmpegBinary opts) (tokens opts input)) opts),
     log' ++ [ (ffmpegBinary opts, tokens opts input) ]).
Proof.
  intros Hin. unfold launchProcess, bind. rewrite Hin. reflexivity.
Qed.

Lemma not_ends_in (a b a' b' : Value) (l : list Value) :
  rev l = b' :: a' :: rev (rev (skipn 2 (rev l))) ->
  (a, b) <> (a', b') -> ~ ends_in [a; b] l.
Proof.
  intros Hl Hne [l1 ->].
  rewrite rev_app_distr in Hl. cbn [rev app] in Hl.
  injection Hl as -> -> _. now apply Hne.
Qed.

(** C1, as the code has it. For a recording intent with region 800x600 at
    (0,0), 30 frames per second, no audio, no duration and no flag
    overrides on the win32 platform, the encoder is spawned with a command
    line that contains the adjacent pairs [-f dshow],
    [-i video="screen-capture-recorder"] and [-video_size 800x600], has no
    duration flag, and ends with the crop filter wrapped in single quotes,
    ['crop=800:600:0:0'], followed by the destination path as the final
    token. *)
Theorem win32_recording_command
        (h : Host) (opts : RecordingOptions) (log : list Spawn) :
  platform h = "win32" ->
  bounds opts
  = {| x := Fin 0; y := Fin 0; width := Fin 800; height := Fin 600 |} ->
  fps opts = Fin 30 ->
  audio opts = false ->
  duration opts = None ->
  flags opts = None ->
  exists toks : list Value,
    launchProcess h opts log
    = (Ok (finish_then (world h (ffmpegBinary opts) toks) opts),
       log ++ [ (ffmpegBinary opts, toks) ])
    /\ adjacent (VStr "-f") (VStr "dshow") toks
    /\ adjacent (VStr "-i")
                (VStr ("video=" +:+ dq +:+ "screen-capture-recorder" +:+ dq)) toks
    /\ adjacent (VStr "-video_size") (VStr "800x600") toks
    /\ (VStr "-t" ∉ flag_names toks)
    /\ ends_in [ VStr "'crop=800:600:0:0'"; VStr (file opts) ] toks.
Proof.
  intros Hp Hb Hf Ha Hd Hfl.
  exists (tokens opts (win32_input_of opts)).
  split; [apply launchProcess_spawns; now apply getInputDevices_win32|].
  rewrite (win32_tokens opts) by assumption.
  split; [| split; [| split; [| split]]].
  - exists (firstn 8 (win32_tokens_800x600 (file opts))),
           (skipn 10 (win32_tokens_800x600 (file opts))).
    reflexivity.
  - exists (firstn 10 (win32_tokens_800x600 (file opts))),
           (skipn 12 (win32_tokens_800x600 (file opts))).
    reflexivity.
  - exists (firstn 6 (win32_tokens_800x600 (file opts))),
           (skipn 8 (win32_tokens_800x600 (file opts))).
    reflexivity.
  - unfold win32_tokens_800x600. cbn [flag_names]. not_among.
  - exists (firstn 19 (win32_tokens_800x600 (file opts))). reflexivity.
Qed.

Lemma win32_recording_command_witness :
  exists toks : list Value,
    launchProcess (host_on "win32" quiet_world) opts_800x600 []
    = (Ok (Ok opts_800x600), [ ("ffmpeg", toks) ])
    /\ adjacent (VStr "-f") (VStr "dshow") toks
    /\ adjacent (VStr "-i")
                (VStr ("video=" +:+ dq +:+ "screen-capture-recorder" +:+ dq)) toks
    /\ adjacent (VStr "-video_size") (VStr "800x600") toks
    /\ (VStr "-t" ∉ flag_names toks)
    /\ ends_in [ VStr "'crop=800:600:0:0'"; VStr "out.mp4" ] toks.
Proof.
  apply (win32_recording_command (host_on "win32" quiet_world) opts_800x600 []);
    reflexivity.
Defined.

(** C1, as stated, fails: in the scenario's command line the token before
    the destination path is not [crop=800:600:0:0]; the code wraps the
    filter in single quotes. *)
Lemma win32_crop_token_is_quoted :
  exists toks : list Value,
    snd (launchProcess (host_on "win32" quiet_world) opts_800x600 [])
    = [ ("ffmpeg", toks) ]
    /\ ~ ends_in [ VStr "crop=800:600:0:0"; VStr "out.mp4" ] toks.
Proof.
  eexists. split; [reflexivity|].
  eapply not_ends_in; [reflexivity | discriminate].
Qed.

(** ** The audio device *)

Lemma getInputDevices_linux_audio (h : Host) (opts : RecordingOptions)
      (log : list Spawn) :
  platform h = "linux" -> audio opts = true ->
  getInputDevices h opts log = (Ok (Some linux_audio_input), log).
Proof.
  intros Hp Ha. unfold getInputDevices. rewrite Hp, Ha. reflexivity.
Qed.

(** C4, as the code has it. With audio requested and an audio device
    resolved, the command line carries the audio device's format and
    selector under the plain flag names [-f] and [-i], directly after the
    video device's [-i] pair; the [audio_] prefix is applied to the override
    keys ([audio_f], [audio_i]) only, and no flag is named [-audio_f] or
    [-audio_i]. *)
Theorem audio_device_flags
        (opts : RecordingOptions) (input : ResolvedInput) (dev : Obj) :
  audio opts = true ->
  in_audio input = Some dev ->
  exists pre post : list Value,
    tokens opts input
    = pre
      ++ [ VStr "-f"; effective (default ∅ (flags opts)) "audio_f" (prop dev "f");
           VStr "-i"; effective (default ∅ (flags opts)) "audio_i" (prop dev "i") ]
      ++ post
    /\ ends_in [ VStr "-i";
                 effective (default ∅ (flags opts)) "i" (prop (in_video input) "i") ]
               pre
    /\ (VStr "-audio_f" ∉ flag_names (tokens opts input))
    /\ (VStr "-audio_i" ∉ flag_names (tokens opts input)).
Proof.
  intros Ha Hdev.
  exists (duration_part opts ++ video_part opts input),
         (merged (default ∅ (flags opts)) recordingArgs.audio
          ++ tail_part opts input ++ [ VStr (file opts) ]).
  rewrite tokens_shape.
  unfold audio_part, audio_device_part. rewrite Ha, Hdev.
  split; [| split; [| split]].
  - rewrite <- !app_assoc. reflexivity.
  - unfold video_part.
    exists (duration_part opts
            ++ merged (default ∅ (flags opts)) recordingArgs.common
            ++ [ VStr "-r"; VStr (to_string (fps opts));
                 VStr "-video_size";
                 VStr (to_string (width (bounds opts)) +:+ "x"
                       +:+ to_string (height (bounds opts)));
                 VStr "-f";
                 effective (default ∅ (flags opts)) "f" (prop (in_video input) "f") ]).
    cbn zeta. rewrite <- !app_assoc. reflexivity.
  - unfold duration_part. explicit_tokens.
    destruct (requested (duration opts)); cbn [app flag_names]; not_among.
  - unfold duration_part. explicit_tokens.
    destruct (requested (duration opts)); cbn [app flag_names]; not_among.
Qed.

Lemma audio_device_flags_witness :
  exists pre post : list Value,
    tokens (with_audio true opts_800x600) linux_audio_input
    = pre ++ [ VStr "-f"; VStr "pulse"; VStr "-i"; VStr "default" ] ++ post
    /\ ends_in [ VStr "-i"; VStr ":0.0" ] pre
    /\ (VStr "-audio_f"
        ∉ flag_names (tokens (with_audio true opts_800x600) linux_audio_input))
    /\ (VStr "-audio_i"
        ∉ flag_names (tokens (with_audio true opts_800x600) linux_audio_input)).
Proof.
  apply (audio_device_flags (with_audio true opts_800x600) linux_audio_input
                            [ ("f", VStr "pulse"); ("i", VStr "default") ]);
    reflexivity.
Defined.

Lemma linux_audio_tokens :
  tokens (with_audio true opts_800x600) linux_audio_input
  = linux_audio_tokens_800x600.
Proof. vm_compute. reflexivity. Qed.

(** C4, as stated, fails: on linux with audio requested the resolver
    returns the pulse device, and no token of the command line is
    [-audio_f] or [-audio_i]. *)
Lemma audio_flag_names_not_prefixed :
  getInputDevices (host_on "linux" quiet_world) (with_audio true opts_800x600) []
  = (Ok (Some linux_audio_input), [])
  /\ in_audio linux_audio_input = Some [ ("f", VStr "pulse"); ("i", VStr "default") ]
  /\ (VStr "-audio_f" ∉ tokens (with_audio true opts_800x600) linux_audio_input)
  /\ (VStr "-audio_i" ∉ tokens (with_audio true opts_800x600) linux_audio_input).
Proof.
  split; [reflexivity | split; [reflexivity |]].
  rewrite linux_audio_tokens. unfold linux_audio_tokens_800x600, VInt.
  split; not_among.
Qed.

(** ** Device discovery on darwin *)

(** ** The matcher on the device patterns *)

Lemma upper_bracket (c a : ascii) :
  c = "["%char \/ c = "]"%char ->
  chr_eq true c a = Ascii.eqb c a.
Proof.
  intros [-> | ->];
    destruct a as [[] [] [] [] [] [] [] []]; reflexivity.
Qed.

Lemma digit_not_bracket (a : ascii) :
  is_digit a = true -> chr_eq true "]" a = false.
Proof. destruct a as [[] [] [] [] [] [] [] []]; vm_compute; congruence. Qed.

Lemma space_not_letter (c a : ascii) :
  c = "C"%char \/ c = "S"%char \/ c = "M"%char ->
  is_space a = true -> chr_eq true c a = false.
Proof.
  intros [-> | [-> | ->]];
    destruct a as [[] [] [] [] [] [] [] []]; vm_compute; congruence.
Qed.

Lemma drop_while_length (p : ascii -> bool) (s : string) :
  (String.length (drop_while p s) <= String.length s)%nat.
Proof.
  induction s as [|a s IH]; cbn; [lia|].
  destruct (p a); cbn; lia.
Qed.

Lemma substring_take_while (p : ascii -> bool) (s : string) :
  substring 0 (String.length s - String.length (drop_while p s)) s
  = take_while p s.
Proof.
  induction s as [|a s IH]; [reflexivity|].
  cbn [drop_while take_while]. destruct (p a).
  - pose proof (drop_while_length p s).
    replace (String.length (String a s) - String.length (drop_while p s))%nat
      with (S (String.length s - String.length (drop_while p s)))
      by (cbn [String.length]; lia).
    cbn [substring]. now rewrite IH.
  - now rewrite Nat.sub_diag.
Qed.

Section MatcherFacts.
Context {R : Type}.
Variable ci : bool.
Implicit Types (k : @Cont R) (s : string) (cap : option string).

Lemma star_set (p : ascii -> bool) k (n : nat) s cap :
  (String.length s <= n)%nat -> stops_at p k ->
  star (rmatch ci (RSet p)) k n s cap = k (drop_while p s) cap.
Proof.
  intros Hn Hk. revert s Hn.
  induction n as [|n IH]; intros s Hn.
  - destruct s; [reflexivity | cbn in Hn; lia].
  - cbn [star rmatch]. destruct s as [|a s]; [reflexivity|].
    cbn [drop_while]. destruct (p a) eqn:Hp; [|reflexivity].
    replace (String.length s <? String.length (String a s))%nat with true
      by (symmetry; apply Nat.ltb_lt; cbn; lia).
    rewrite IH by (cbn in Hn; lia).
    destruct (k (drop_while p s) cap); [reflexivity|].
    now apply Hk.
Qed.

Lemma rmatch_run (p : ascii -> bool) k s cap :
  stops_at p k ->
  rmatch ci (RPlus (RSet p)) s cap k
  = match strip_run p s with
    | Some s' => k s' cap
    | None => None
    end.
Proof.
  intros Hk. unfold RPlus. cbn [rmatch]. destruct s as [|a s]; [reflexivity|].
  cbn [strip_run]. destruct (p a); [|reflexivity].
  now apply star_set.
Qed.

Lemma rmatch_group_run (p : ascii -> bool) k s cap :
  stops_at p k ->
  rmatch ci (RGroup (RPlus (RSet p))) s cap k
  = match strip_run p s with
    | Some s' => k s' (Some (take_while p s))
    | None => None
    end.
Proof.
  intros Hk. cbn [rmatch]. rewrite rmatch_run.
  - destruct s as [|a s]; [reflexivity|]. cbn [strip_run].
    destruct (p a) eqn:Hp; [|reflexivity].
    rewrite <- (substring_take_while p (String a s)).
    cbn [drop_while]. now rewrite Hp.
  - intros a s' c Hp. now apply Hk.
Qed.
End MatcherFacts.

Lemma rmatch_chr {R : Type} (c : ascii) (k : @Cont R) (s : string)
      (cap : option string) :
  c = "["%char \/ c = "]"%char ->
  rmatch true (RChr c) s cap k
  = match strip_char c s with
    | Some s' => k s' cap
    | None => None
    end.
Proof.
  intros Hc. destruct s as [|a s]; [reflexivity|].
  cbn [rmatch strip_char]. rewrite (upper_bracket c a Hc).
  now destruct (Ascii.eqb c a).
Qed.

Lemma rmatch_word {R : Type} (w : string) (k : @Cont R) (s : string)
      (cap : option string) :
  rmatch true (RLit w) s cap k
  = match strip_word w s with
    | Some s' => k s' cap
    | None => None
    end.
Proof.
  revert s. induction w as [|c w IH]; intros s; [reflexivity|].
  cbn [RLit rmatch strip_word]. destruct s as [|a s]; [reflexivity|].
  unfold chr_eq. destruct (Ascii.eqb (upper c) (upper a)); [apply IH | reflexivity].
Qed.

Lemma stops_at_bracket {R : Type} (r : regex) (k : @Cont R) :
  stops_at is_digit (fun s cap => rmatch true (RSeq (RChr "]") r) s cap k).
Proof.
  intros a s cap Ha. cbn [rmatch]. now rewrite digit_not_bracket.
Qed.

Lemma stops_at_word {R : Type} (c : ascii) (w : string) (r : regex) (k : @Cont R) :
  c = "C"%char \/ c = "S"%char \/ c = "M"%char ->
  stops_at is_space (fun s cap => rmatch true (RSeq (RLit (String c w)) r) s cap k).
Proof.
  intros Hc a s cap Ha. cbn [RLit rmatch]. now rewrite (space_not_letter c a Hc Ha).
Qed.

(** Exposes the first component of a sequence pattern. *)
Ltac first_component :=
  cbn [mbind option_bind];
  change (rmatch true (RSeq ?r1 ?r2) ?s ?c ?k)
    with (rmatch true r1 s c (fun s1 c1 => rmatch true r2 s1 c1 k)).

Lemma rmatch_screen_re (s : string) :
  rmatch true screen_re s None (fun _ cap => Some cap)
  = option_map Some (screen_entry_at s).
Proof.
  unfold screen_re, screen_entry_at, bracketed_index. cbn [RCat].
  first_component. rewrite rmatch_chr by now left.
  destruct (strip_char "[" s) as [s1|]; [|reflexivity].
  first_component. rewrite rmatch_group_run by apply stops_at_bracket.
  destruct (strip_run is_digit s1) as [s2|]; [|reflexivity].
  first_component. rewrite rmatch_chr by now right.
  destruct (strip_char "]" s2) as [s3|]; [|reflexivity].
  first_component. rewrite rmatch_run by (apply stops_at_word; now left).
  destruct (strip_run is_space s3) as [s4|]; [|reflexivity].
  first_component. rewrite rmatch_word.
  destruct (strip_word "Capture" s4) as [s5|]; [|reflexivity].
  first_component. rewrite rmatch_run by (apply stops_at_word; right; now left).
  destruct (strip_run is_space s5) as [s6|]; [|reflexivity].
  first_component. rewrite rmatch_word.
  destruct (strip_word "Screen" s6) as [s7|]; reflexivity.
Qed.

Lemma rsearch_entries (r : regex) (entry_at : string -> option string)
      (text : string) :
  (forall s, rmatch true r s None (fun _ cap => Some cap)
             = option_map Some (entry_at s)) ->
  rsearch true r text = option_map Some (head (entries entry_at text)).
Proof.
  intros Hr. induction text as [|a text IH]; cbn [rsearch entries]; rewrite Hr.
  - now destruct (entry_at EmptyString).
  - destruct (entry_at (String a text)); [reflexivity|]. apply IH.
Qed.

Lemma getMacInputDevices_video_only (h : Host) (opts : RecordingOptions)
      (log : list Spawn) :
  audio opts = false ->
  getMacInputDevices h opts log
  = (match head (entries screen_entry_at (discovery_text h opts)) with
     | Some n => Ok ("'" +:+ n +:+ ":none'")
     | None => Throw (Error "Cannot find screen recording device")
     end,
     log ++ [ list_devices opts ]).
Proof.
  intros Ha. unfold getMacInputDevices, bind, spawn, await_ignoring, ret, throw.
  fold (discovery_text h opts).
  rewrite (rsearch_entries _ _ _ rmatch_screen_re). rewrite Ha.
  now destruct (head _).
Qed.

(** C5, as the code has it. On darwin with audio disabled, the selector is
    built from the first Capture Screen entry of the discovery text alone:
    when the entries of the text are [n], followed by any others, resolution
    succeeds with ['n:none'], after exactly one call of the encoder in
    list-devices mode, whatever that call's exit status and whether or not
    the text has a microphone line. *)
Theorem darwin_selector_without_audio
        (h : Host) (opts : RecordingOptions) (log : list Spawn)
        (n : string) (others : list string) :
  audio opts = false ->
  entries screen_entry_at (discovery_text h opts) = n :: others ->
  getMacInputDevices h opts log
  = (Ok ("'" +:+ n +:+ ":none'"), log ++ [ list_devices opts ]).
Proof.
  intros Ha Hn. rewrite getMacInputDevices_video_only by assumption.
  now rewrite Hn.
Qed.

Lemma darwin_selector_without_audio_witness :
  getMacInputDevices (host_on "darwin" (listing_world two_screens)) opts_800x600 []
  = (Ok "'1:none'", [ list_devices opts_800x600 ]).
Proof.
  apply (darwin_selector_without_audio
           (host_on "darwin" (listing_world two_screens)) opts_800x600 []
           "1" [ "2" ]); reflexivity.
Defined.

(** C5, as stated, fails: the device list of a host with two displays
    contains the entry [[2] Capture screen 1], with index 2, and with audio
    disabled the selector is ['1:none'], not ['2:none']. *)
Lemma second_screen_entry_is_not_selected :
  two_screens
  = ("[0] FaceTime HD Camera" +:+ lf +:+ "[1] Capture screen 0" +:+ lf)
    +:+ "[2] Capture screen 1" +:+ lf
  /\ screen_entry_at ("[2] Capture screen 1" +:+ lf) = Some "2"
  /\ audio opts_800x600 = false
  /\ fst (getMacInputDevices (host_on "darwin" (listing_world two_screens))
                             opts_800x600 [])
     = Ok "'1:none'"
  /\ fst (getMacInputDevices (host_on "darwin" (listing_world two_screens))
                             opts_800x600 [])
     <> Ok "'2:none'".
Proof. repeat split. discriminate. Qed.

(** ** The transcode *)

Lemma generateGIF_spawns (h : Host) (opts : RecordingOptions) (ffmpeg : string)
      (log : list Spawn) :
  getFFmpegBinary h = Some ffmpeg -> ffmpeg <> EmptyString ->
  generateGIF h opts log
  = (if exit_ok (world h ffmpeg (palettegen_args h opts))
     then Ok (Some (finish_then (world h ffmpeg (paletteuse_args h opts))
                                (final opts)))
     else Throw ProcessFailed,
     log ++ transcode_spawns h ffmpeg opts).
Proof.
  intros Hb Hne. unfold generateGIF, transcode_spawns. rewrite Hb.
  destruct (String.eqb_spec ffmpeg EmptyString) as [|_]; [contradiction|].
  unfold bind, spawn, await, finish_then, ret, throw.
  destruct (exit_ok (world h ffmpeg (palettegen_args h opts)));
    [now rewrite <- app_assoc | reflexivity].
Qed.

Lemma append_assoc (a b c : string) : (a +:+ b) +:+ c = a +:+ b +:+ c.
Proof.
  induction a as [|x a IH]; [reflexivity|].
  change (String x ((a +:+ b) +:+ c) = String x (a +:+ b +:+ c)).
  now rewrite IH.
Qed.

Lemma generateGIF_vf_shape (opts : RecordingOptions) :
  generateGIF_vf opts
  = "fps=" +:+ to_string (fps opts) +:+ ",scale=" +:+ fst (target_size opts)
    +:+ ":" +:+ snd (target_size opts) +:+ ":flags=lanczos".
Proof.
  unfold generateGIF_vf, target_size.
  destruct (scale opts) as [s|]; [destruct (truthy_num s)|];
    cbn [fst snd]; now rewrite !append_assoc.
Qed.

(** C6, on a recording in a directory whose name contains [.mp4]: the path
    ends in [.mp4], the transcode succeeds, and the path it returns has the
    directory name rewritten and the suffix left as it was. *)
Lemma nested_recording_output_path :
  ends_with ".mp4" nested_recording = true
  /\ generateGIF (host_on "linux" quiet_world)
                 (with_file nested_recording opts_800x600) []
     = (Ok (Some (Ok "/tmp/shots.gif/demo.mp4")),
        transcode_spawns (host_on "linux" quiet_world) "ffmpeg"
                         (with_file nested_recording opts_800x600))
  /\ gif_suffixed nested_recording = "/tmp/shots.mp4/demo.gif"
  /\ final (with_file nested_recording opts_800x600)
     <> gif_suffixed nested_recording.
Proof. repeat split. discriminate. Qed.

(** C7, as the code has it. Within one transcode call, for any scale
    factor, both stages are given the same filter text
    [fps=<fps>,scale=<w>:<h>:flags=lanczos], [w] and [h] the region's width
    and height, multiplied by a truthy factor and truncated: the
    palette-generation call
    takes it followed by the [palettegen] stage, the palette-use call takes
    it followed by the [paletteuse] stage, the whole wrapped in double
    quotes. *)
Theorem transcode_filters_share_vf
        (h : Host) (opts : RecordingOptions) (ffmpeg : string) (log : list Spawn) :
  getFFmpegBinary h = Some ffmpeg -> ffmpeg <> EmptyString ->
  exists vf : string,
    vf = "fps=" +:+ to_string (fps opts) +:+ ",scale=" +:+ fst (target_size opts)
         +:+ ":" +:+ snd (target_size opts) +:+ ":flags=lanczos"
    /\ snd (generateGIF h opts log) = log ++ transcode_spawns h ffmpeg opts
    /\ adjacent (VStr "-vf") (VStr (vf +:+ ",palettegen=stats_mode=diff"))
                (palettegen_args h opts)
    /\ adjacent (VStr "-lavfi")
                (VStr (dq +:+ vf
                       +:+ ",paletteuse=dither=bayer:bayer_scale=5:diff_mode=rectangle"
                       +:+ dq))
                (paletteuse_args h opts).
Proof.
  intros Hb Hne. exists (generateGIF_vf opts).
  split; [apply generateGIF_vf_shape|].
  split; [now rewrite (generateGIF_spawns h opts ffmpeg)|].
  split.
  - now exists [ VStr "-i"; VStr (file opts) ], [ VStr "-y"; VStr (paletteFile h) ].
  - now exists [ VStr "-i"; VStr (file opts); VStr "-i"; VStr (paletteFile h) ],
               [ VStr "-y"; VStr (final opts) ].
Qed.

Lemma transcode_filters_share_vf_witness :
  exists vf : string,
    vf = "fps=30,scale=1007:503:flags=lanczos"
    /\ snd (generateGIF (host_on "linux" quiet_world) opts_1440x720_at_07 [])
       = transcode_spawns (host_on "linux" quiet_world) "ffmpeg"
                          opts_1440x720_at_07
    /\ adjacent (VStr "-vf") (VStr (vf +:+ ",palettegen=stats_mode=diff"))
                (palettegen_args (host_on "linux" quiet_world)
                                 opts_1440x720_at_07)
    /\ adjacent (VStr "-lavfi")
                (VStr (dq +:+ vf
                       +:+ ",paletteuse=dither=bayer:bayer_scale=5:diff_mode=rectangle"
                       +:+ dq))
                (paletteuse_args (host_on "linux" quiet_world)
                                 opts_1440x720_at_07).
Proof.
  apply (transcode_filters_share_vf
           (host_on "linux" quiet_world) opts_1440x720_at_07 "ffmpeg" []);
    [reflexivity | discriminate].
Defined.

(** C7, as stated, fails: in a transcode of the 800x600 intent the filter
    token of the palette-generation call starts with
    [fps=30,scale=800:600:flags=lanczos], and the filter token of the
    palette-use call does not: it starts with a double quote. *)
Lemma paletteuse_filter_is_quoted :
  exists (f1 f2 : string) (args1 args2 : list Value),
    snd (generateGIF (host_on "linux" quiet_world) opts_800x600 [])
    = [ ("ffmpeg", args1); ("ffmpeg", args2) ]
    /\ adjacent (VStr "-vf") (VStr f1) args1
    /\ adjacent (VStr "-lavfi") (VStr f2) args2
    /\ starts_with "fps=30,scale=800:600:flags=lanczos" f1 = true
    /\ starts_with "fps=30,scale=800:600:flags=lanczos" f2 = false
    /\ starts_with dq f2 = true.
Proof.
  exists (palettegen_filter opts_800x600), (paletteuse_filter opts_800x600),
         (palettegen_args (host_on "linux" quiet_world) opts_800x600),
         (paletteuse_args (host_on "linux" quiet_world) opts_800x600).
  split; [reflexivity|]. split; [|split; [|repeat split]].
  - now exists [ VStr "-i"; VStr "out.mp4" ], [ VStr "-y"; VStr "/tmp/palette-gen.png" ].
  - now exists [ VStr "-i"; VStr "out.mp4"; VStr "-i"; VStr "/tmp/palette-gen.png" ],
               [ VStr "-y"; VStr "out.gif" ].
Qed.

(** C8. When the configuration resolves no encoder binary, the transcode
    returns no result, raises no error and spawns no process: the log of
    spawned processes is left as it was. *)
Theorem no_encoder_no_transcode
        (h : Host) (opts : RecordingOptions) (log : list Spawn) :
  getFFmpegBinary h = None ->
  generateGIF h opts log = (Ok None, log).
Proof. intros Hb. unfold generateGIF. now rewrite Hb. Qed.

Lemma no_encoder_no_transcode_witness :
  generateGIF (with_encoder None (host_on "linux" quiet_world)) opts_800x600 []
  = (Ok None, []).
Proof.
  apply (no_encoder_no_transcode
           (with_encoder None (host_on "linux" quiet_world)) opts_800x600 []).
  reflexivity.
Defined.

(** C9, as the code has it. The palette file is not per call: on a host,
    every transcode call, whatever its intent, writes the palette to and
    reads it from the one path [path.resolve(os.tmpdir(), 'palette-gen.png')],
    as the last token of the palette-generation call and as the second input
    of the palette-use call. *)
Theorem palette_file_is_shared
        (h : Host) (ffmpeg : string) (opts1 opts2 : RecordingOptions)
        (log1 log2 : list Spawn) :
  getFFmpegBinary h = Some ffmpeg -> ffmpeg <> EmptyString ->
  snd (generateGIF h opts1 log1) = log1 ++ transcode_spawns h ffmpeg opts1
  /\ snd (generateGIF h opts2 log2) = log2 ++ transcode_spawns h ffmpeg opts2
  /\ (forall opts : RecordingOptions,
         ends_in [ VStr "-y"; VStr (path_resolve h (tmpdir h) "palette-gen.png") ]
                 (palettegen_args h opts)
         /\ adjacent (VStr "-i")
                     (VStr (path_resolve h (tmpdir h) "palette-gen.png"))
                     (paletteuse_args h opts)).
Proof.
  intros Hb Hne.
  split; [now rewrite (generateGIF_spawns h opts1 ffmpeg)|].
  split; [now rewrite (generateGIF_spawns h opts2 ffmpeg)|].
  intros opts. split.
  - now exists [ VStr "-i"; VStr (file opts); VStr "-vf";
                 VStr (generateGIF_vf opts +:+ ",palettegen=stats_mode=diff") ].
  - now exists [ VStr "-i"; VStr (file opts) ],
               [ VStr "-lavfi"; VStr (paletteuse_filter opts);
                 VStr "-y"; VStr (final opts) ].
Qed.

Lemma palette_file_is_shared_witness :
  snd (generateGIF (host_on "linux" quiet_world)
                   (with_file "a.mp4" opts_800x600) [])
  = transcode_spawns (host_on "linux" quiet_world) "ffmpeg"
                     (with_file "a.mp4" opts_800x600)
  /\ snd (generateGIF (host_on "linux" quiet_world)
                      (with_file "b.mp4" opts_800x600) [])
     = transcode_spawns (host_on "linux" quiet_world) "ffmpeg"
                        (with_file "b.mp4" opts_800x600)
  /\ (forall opts : RecordingOptions,
         ends_in [ VStr "-y"; VStr "/tmp/palette-gen.png" ]
                 (palettegen_args (host_on "linux" quiet_world) opts)
         /\ adjacent (VStr "-i") (VStr "/tmp/palette-gen.png")
                     (paletteuse_args (host_on "linux" quiet_world) opts)).
Proof.
  apply (palette_file_is_shared
           (host_on "linux" quiet_world) "ffmpeg"
           (with_file "a.mp4" opts_800x600) (with_file "b.mp4" opts_800x600)
           [] []);
    [reflexivity | discriminate].
Defined.

(** C9, as stated, fails: two distinct transcode calls on one host, for the
    recordings [a.mp4] and [b.mp4], both write their palette to
    [/tmp/palette-gen.png]. *)
Lemma two_transcodes_one_palette_file :
  with_file "a.mp4" opts_800x600 <> with_file "b.mp4" opts_800x600
  /\ exists (args1 args2 : list Value) (rest1 rest2 : list Spawn),
      snd (generateGIF (host_on "linux" quiet_world)
                       (with_file "a.mp4" opts_800x600) [])
      = ("ffmpeg", args1) :: rest1
      /\ snd (generateGIF (host_on "linux" quiet_world)
                          (with_file "b.mp4" opts_800x600) [])
         = ("ffmpeg", args2) :: rest2
      /\ ends_in [ VStr "-y"; VStr "/tmp/palette-gen.png" ] args1
      /\ ends_in [ VStr "-y"; VStr "/tmp/palette-gen.png" ] args2.
Proof.
  split; [discriminate|].
  do 4 eexists. split; [reflexivity|]. split; [reflexivity|].
  split; now eexists [_; _; _; _].
Qed.

(** C10. A scale factor of [0] (or [-0] or [NaN], the other falsy numbers)
    gives the transcode of the same intent without a scale factor: the
    filter text carries the capture region's own width and height, and the
    whole call, its processes and its result are the same. *)
Theorem falsy_scale_is_no_scale
        (h : Host) (opts : RecordingOptions) (s : Num) (log : list Spawn) :
  scale opts = Some s -> truthy_num s = false ->
  generateGIF_vf opts
  = "fps=" +:+ to_string (fps opts)
    +:+ ",scale=" +:+ to_string (width (bounds opts))
    +:+ ":" +:+ to_string (height (bounds opts)) +:+ ":flags=lanczos"
  /\ generateGIF_vf opts = generateGIF_vf (with_scale None opts)
  /\ generateGIF h opts log = generateGIF h (with_scale None opts) log.
Proof.
  intros Hs Hf.
  assert (Hvf : generateGIF_vf opts = generateGIF_vf (with_scale None opts))
    by (unfold generateGIF_vf; rewrite Hs, Hf; reflexivity).
  split; [|split; [exact Hvf|]].
  - rewrite generateGIF_vf_shape. unfold target_size. now rewrite Hs, Hf.
  - unfold generateGIF, palettegen_args, paletteuse_args. now rewrite Hvf.
Qed.

Lemma falsy_scale_is_no_scale_witness :
  generateGIF_vf (with_scale (Some (Fin 0)) opts_800x600)
  = "fps=30,scale=800:600:flags=lanczos"
  /\ generateGIF_vf (with_scale (Some (Fin 0)) opts_800x600)
     = generateGIF_vf (with_scale None (with_scale (Some (Fin 0)) opts_800x600))
  /\ generateGIF (host_on "linux" quiet_world)
                 (with_scale (Some (Fin 0)) opts_800x600) []
     = generateGIF (host_on "linux" quiet_world)
                   (with_scale None (with_scale (Some (Fin 0)) opts_800x600)) [].
Proof.
  apply (falsy_scale_is_no_scale
           (host_on "linux" quiet_world)
           (with_scale (Some (Fin 0)) opts_800x600) (Fin 0) []);
    reflexivity.
Defined.

(** ** Platforms and failures *)

(** On a platform that [getInputDevices] has no case for, resolution yields
    nothing and the recording is refused with [Unsupported platform] before
    any process is spawned. *)
Theorem unsupported_platform_is_refused
        (h : Host) (opts : RecordingOptions) (log : list Spawn) :
  platform h ∉ supported_platforms ->
  getInputDevices h opts log = (Ok None, log)
  /\ launchProcess h opts log = (Throw (Error "Unsupported platform"), log).
Proof.
  intros Hp.
  assert (Hin : getInputDevices h opts log = (Ok None, log)).
  { unfold getInputDevices, supported_platforms in *.
    destruct (String.eqb_spec (platform h) "darwin") as [He|_];
      [exfalso; apply Hp; rewrite He; repeat constructor|].
    destruct (String.eqb_spec (platform h) "win32") as [He|_];
      [exfalso; apply Hp; rewrite He; repeat constructor|].
    destruct (String.eqb_spec (platform h) "linux") as [He|_];
      [exfalso; apply Hp; rewrite He; repeat constructor|].
    reflexivity. }
  split; [exact Hin|].
  unfold launchProcess, bind. now rewrite Hin.
Qed.

Lemma unsupported_platform_is_refused_witness :
  getInputDevices (host_on "freebsd" quiet_world) opts_800x600 [] = (Ok None, [])
  /\ launchProcess (host_on "freebsd" quiet_world) opts_800x600 []
     = (Throw (Error "Unsupported platform"), []).
Proof.
  apply (unsupported_platform_is_refused
           (host_on "freebsd" quiet_world) opts_800x600 []).
  unfold supported_platforms.
  rewrite !not_elem_of_cons. repeat split; try discriminate. apply not_elem_of_nil.
Defined.

(** On darwin a failing geometry query stops the resolution: the rejection
    of its completion promise is what [getInputDevices] and [launchProcess]
    throw, and neither the list-devices call nor the recording is started. *)
Theorem geometry_query_failure_propagates
        (h : Host) (opts : RecordingOptions) (log : list Spawn) :
  platform h = "darwin" ->
  exit_ok (world h (fst geometry_query) (snd geometry_query)) = false ->
  getInputDevices h opts log = (Throw ProcessFailed, log ++ [ geometry_query ])
  /\ launchProcess h opts log = (Throw ProcessFailed, log ++ [ geometry_query ]).
Proof.
  intros Hp Hx.
  assert (Hin : getInputDevices h opts log
                = (Throw ProcessFailed, log ++ [ geometry_query ])).
  { unfold getInputDevices. rewrite Hp. cbn [String.eqb Ascii.eqb Bool.eqb].
    unfold geometry_query in *. cbn [fst snd] in Hx.
    unfold bind, spawn, await, finish_then. now rewrite Hx. }
  split; [exact Hin|].
  unfold launchProcess, bind. now rewrite Hin.
Qed.

Lemma geometry_query_failure_propagates_witness :
  getInputDevices (host_on "darwin" failing_world) opts_800x600 []
  = (Throw ProcessFailed, [ geometry_query ])
  /\ launchProcess (host_on "darwin" failing_world) opts_800x600 []
     = (Throw ProcessFailed, [ geometry_query ]).
Proof.
  apply (geometry_query_failure_propagates
           (host_on "darwin" failing_world) opts_800x600 []); reflexivity.
Defined.

(** On win32 and linux a recording resolves its devices without spawning
    anything and spawns exactly one process, the encoder; the completion
    promise it returns resolves with the original intent when that process
    exits normally and is rejected otherwise. *)
Theorem recording_completes_with_intent
        (h : Host) (opts : RecordingOptions) (log : list Spawn) :
  platform h = "win32" \/ platform h = "linux" ->
  exists input : ResolvedInput,
    getInputDevices h opts log = (Ok (Some input), log)
    /\ launchProcess h opts log
       = (Ok (if exit_ok (world h (ffmpegBinary opts) (tokens opts input))
              then Ok opts else Throw ProcessFailed),
          log ++ [ recording opts input ]).
Proof.
  intros Hp.
  assert (Hin : exists input, getInputDevices h opts log = (Ok (Some input), log)).
  { unfold getInputDevices. destruct Hp as [-> | ->]; eexists; reflexivity. }
  destruct Hin as [input Hin]. exists input. split; [exact Hin|].
  now rewrite (launchProcess_spawns h opts input log log).
Qed.

Lemma recording_completes_with_intent_witness :
  exists input : ResolvedInput,
    getInputDevices (host_on "linux" failing_world) opts_800x600 []
    = (Ok (Some input), [])
    /\ launchProcess (host_on "linux" failing_world) opts_800x600 []
       = (Ok (Throw ProcessFailed), [ recording opts_800x600 input ]).
Proof.
  apply (recording_completes_with_intent
           (host_on "linux" failing_world) opts_800x600 []).
  now right.
Defined.

(** An encoder path that is the empty string counts as no encoder: the
    transcode returns no result and spawns nothing. *)
Theorem empty_encoder_path_is_no_encoder
        (h : Host) (opts : RecordingOptions) (log : list Spawn) :
  getFFmpegBinary h = Some EmptyString ->
  generateGIF h opts log = (Ok None, log).
Proof. intros Hb. unfold generateGIF. now rewrite Hb. Qed.

Lemma empty_encoder_path_is_no_encoder_witness :
  generateGIF (with_encoder (Some EmptyString) (host_on "linux" quiet_world))
              opts_800x600 []
  = (Ok None, []).
Proof.
  apply (empty_encoder_path_is_no_encoder
           (with_encoder (Some EmptyString) (host_on "linux" quiet_world))
           opts_800x600 []).
  reflexivity.
Defined.

(** The stages of a transcode run in sequence: when the palette-generation
    call fails, its rejection is thrown by the transcode and the palette-use
    call is never started. *)
Theorem palette_failure_stops_transcode
        (h : Host) (opts : RecordingOptions) (ffmpeg : string) (log : list Spawn) :
  getFFmpegBinary h = Some ffmpeg -> ffmpeg <> EmptyString ->
  exit_ok (world h ffmpeg (palettegen_args h opts)) = false ->
  generateGIF h opts log
  = (Throw ProcessFailed, log ++ [ (ffmpeg, palettegen_args h opts) ]).
Proof.
  intros Hb Hne Hx. rewrite (generateGIF_spawns h opts ffmpeg) by assumption.
  unfold transcode_spawns. now rewrite Hx.
Qed.

Lemma palette_failure_stops_transcode_witness :
  generateGIF (host_on "linux" failing_world) opts_800x600 []
  = (Throw ProcessFailed,
     [ ("ffmpeg", palettegen_args (host_on "linux" failing_world) opts_800x600) ]).
Proof.
  apply (palette_failure_stops_transcode
           (host_on "linux" failing_world) opts_800x600 "ffmpeg" []);
    [reflexivity | discriminate | reflexivity].
Defined.

(** When the palette-generation call succeeds, the transcode spawns the
    palette-use call after it, with the same encoder, and returns a promise
    that resolves with the output path when the palette-use call exits
    normally and is rejected otherwise: a failure of the second stage is not
    thrown by the transcode itself. *)
Theorem transcode_completes_with_output_path
        (h : Host) (opts : RecordingOptions) (ffmpeg : string) (log : list Spawn) :
  getFFmpegBinary h = Some ffmpeg -> ffmpeg <> EmptyString ->
  exit_ok (world h ffmpeg (palettegen_args h opts)) = true ->
  generateGIF h opts log
  = (Ok (Some (if exit_ok (world h ffmpeg (paletteuse_args h opts))
               then Ok (replace ".mp4" ".gif" (file opts))
               else Throw ProcessFailed)),
     log ++ [ (ffmpeg, palettegen_args h opts); (ffmpeg, paletteuse_args h opts) ]).
Proof.
  intros Hb Hne Hx. rewrite (generateGIF_spawns h opts ffmpeg) by assumption.
  unfold transcode_spawns. now rewrite Hx.
Qed.

Lemma transcode_completes_with_output_path_witness :
  generateGIF (host_on "linux" quiet_world) opts_800x600 []
  = (Ok (Some (Ok "out.gif")),
     [ ("ffmpeg", palettegen_args (host_on "linux" quiet_world) opts_800x600);
       ("ffmpeg", paletteuse_args (host_on "linux" quiet_world) opts_800x600) ]).
Proof.
  apply (transcode_completes_with_output_path
           (host_on "linux" quiet_world) opts_800x600 "ffmpeg" []);
    [reflexivity | discriminate | reflexivity].
Defined.

(** The transcode reads the region, the frame rate, the file and the scale
    factor of the intent and nothing else: two intents that agree on these
    give the same call, whatever their encoder path, audio flag, duration
    and overrides. The encoder is the configured one. *)
Theorem transcode_reads_four_fields
        (h : Host) (o1 o2 : RecordingOptions) (log : list Spawn) :
  bounds o1 = bounds o2 -> fps o1 = fps o2 ->
  file o1 = file o2 -> scale o1 = scale o2 ->
  generateGIF h o1 log = generateGIF h o2 log.
Proof.
  intros Hb Hf Hp Hs.
  unfold generateGIF, palettegen_args, paletteuse_args, final, generateGIF_vf.
  now rewrite Hb, Hf, Hp, Hs.
Qed.

Lemma transcode_reads_four_fields_witness :
  generateGIF (host_on "linux" quiet_world) opts_800x600 []
  = generateGIF (host_on "linux" quiet_world)
                (with_binary "/opt/other/ffmpeg"
                   (with_audio true (with_duration (Some (Fin 10)) opts_800x600))) [].
Proof.
  apply (transcode_reads_four_fields
           (host_on "linux" quiet_world) opts_800x600
           (with_binary "/opt/other/ffmpeg"
              (with_audio true (with_duration (Some (Fin 10)) opts_800x600))) []);
    reflexivity.
Defined.

(** ** Invariants of the recording command line *)

(** The flag names of a recording's command line and their order are fixed
    by the intent's duration and audio flag and by whether an audio device
    was resolved; no override changes them. *)
Theorem flag_names_in_order (opts : RecordingOptions) (input : ResolvedInput) :
  flag_names (tokens opts input) = map VStr (flag_order opts input).
Proof.
  rewrite tokens_shape. unfold duration_part, flag_order. explicit_tokens.
  destruct (requested (duration opts)), (audio opts), (in_audio input);
    reflexivity.
Qed.

(** The command line is a sequence of flag/value pairs followed by one
    token, the destination path. *)
Theorem flags_and_values_are_paired (opts : RecordingOptions) (input : ResolvedInput) :
  length (tokens opts input) = 2 * length (flag_names (tokens opts input)) + 1
  /\ last (tokens opts input) = Some (VStr (file opts)).
Proof.
  rewrite tokens_shape. unfold duration_part. explicit_tokens.
  destruct (requested (duration opts)), (audio opts), (in_audio input);
    split; reflexivity.
Qed.

Lemma effective_agree (c1 c2 : gmap string Value) (k : string) (d : Value) :
  c1 !! k = c2 !! k -> effective c1 k d = effective c2 k d.
Proof. intros Hk. unfold effective. now rewrite Hk. Qed.

(** A recording consults the override mapping under thirteen keys only:
    two mappings that agree on them give the same command line. An override
    keyed by any other name, such as [r], [t], [video_size] or [vf], changes
    nothing. *)
Theorem other_overrides_are_ignored
        (opts : RecordingOptions) (input : ResolvedInput)
        (c1 c2 : gmap string Value) :
  (forall k, k ∈ consulted_keys -> c1 !! k = c2 !! k) ->
  tokens (with_flags (Some c1) opts) input
  = tokens (with_flags (Some c2) opts) input.
Proof.
  intros Hk. rewrite !tokens_shape.
  unfold duration_part. explicit_tokens.
  cbn [with_flags flags duration audio fps bounds file default].
  assert (He : forall k d, k ∈ consulted_keys ->
                           effective c1 k d = effective c2 k d)
    by (intros k d Hin; apply effective_agree, Hk, Hin).
  unfold launchProcess_vf. cbn [with_flags bounds].
  rewrite !(He "threads"), !(He "capture_cursor"), !(He "f"), !(He "i"),
    !(He "preset"), !(He "crf"), !(He "c:v")
    by (unfold consulted_keys; repeat constructor).
  destruct (audio opts); [|reflexivity].
  rewrite !(He "b:a"), !(He "c:a"), !(He "ac"), !(He "vbr")
    by (unfold consulted_keys; repeat constructor).
  destruct (in_audio input); [|reflexivity].
  rewrite !(He "audio_f"), !(He "audio_i")
    by (unfold consulted_keys; repeat constructor).
  reflexivity.
Qed.

Lemma other_overrides_are_ignored_witness :
  tokens (with_flags (Some {[ "r" := VInt 60 ]}) opts_800x600) win32_input
  = tokens (with_flags (Some ∅) opts_800x600) win32_input.
Proof.
  apply (other_overrides_are_ignored opts_800x600 win32_input
                                     {[ "r" := VInt 60 ]} ∅).
  intros k Hk. unfold consulted_keys in Hk.
  repeat (apply elem_of_cons in Hk as [-> | Hk]); try reflexivity.
  now apply elem_of_nil in Hk.
Defined.

(** A recording spawns the same processes whatever the configured encoder
    path, the temporary directory and the intent's scale factor: it runs the
    intent's own encoder path and never consults the transcode's settings. *)
Theorem recording_ignores_transcode_settings
        (h : Host) (opts : RecordingOptions) (b : option string) (t : string)
        (s : option Num) (log : list Spawn) :
  snd (launchProcess (with_tmpdir t (with_encoder b h)) (with_scale s opts) log)
  = snd (launchProcess h opts log).
Proof.
  unfold launchProcess, getInputDevices, getMacInputDevices, bind.
  cbn [with_tmpdir with_encoder with_scale platform world audio ffmpegBinary].
  destruct (String.eqb (platform h) "darwin").
  - unfold spawn, await, finish_then, await_ignoring, ret, throw.
    destruct (exit_ok _); [|reflexivity].
    destruct (rsearch true screen_re _) as [m|]; [|reflexivity].
    destruct (group1 m _) as [[i|e] l] eqn:Hg; [|reflexivity].
    destruct (negb (audio opts)); [reflexivity|].
    destruct (rsearch true microphone_re _) as [m'|]; [|reflexivity].
    destruct (group1 m' _) as [[i'|e'] l']; reflexivity.
  - destruct (String.eqb (platform h) "win32"); [reflexivity|].
    destruct (String.eqb (platform h) "linux"); reflexivity.
Qed.

(** ** The microphone pattern and the selector *)

Lemma star_then_word (w : string) (n : nat) (s : string) (cap : option string) :
  (String.length s <= n)%nat ->
  star (rmatch true (RSet not_newline))
       (fun s1 c1 => rmatch true (RSeq (RLit w) REps) s1 c1 (fun _ c => Some c))
       n s cap
  = if on_line w s then Some cap else None.
Proof.
  revert s. induction n as [|n IH]; intros s Hn.
  - destruct s; [|cbn in Hn; lia].
    cbn [star rmatch on_line]. rewrite rmatch_word.
    now destruct (strip_word w EmptyString).
  - cbn [star]. destruct s as [|a s].
    + cbn [rmatch on_line]. rewrite rmatch_word.
      now destruct (strip_word w EmptyString).
    + cbn [rmatch on_line]. rewrite rmatch_word.
      destruct (not_newline a).
      * replace (String.length s <? String.length (String a s))%nat with true
          by (symmetry; apply Nat.ltb_lt; cbn; lia).
        rewrite IH by (cbn in Hn; lia).
        destruct (on_line w s), (strip_word w (String a s)); reflexivity.
      * now destruct (strip_word w (String a s)).
Qed.

Lemma rmatch_microphone_re (s : string) :
  rmatch true microphone_re s None (fun _ cap => Some cap)
  = option_map Some (microphone_entry_at s).
Proof.
  unfold microphone_re, microphone_entry_at, bracketed_index. cbn [RCat].
  first_component. rewrite rmatch_chr by now left.
  destruct (strip_char "[" s) as [s1|]; [|reflexivity].
  first_component. rewrite rmatch_group_run by apply stops_at_bracket.
  destruct (strip_run is_digit s1) as [s2|]; [|reflexivity].
  first_component. rewrite rmatch_chr by now right.
  destruct (strip_char "]" s2) as [s3|]; [|reflexivity].
  first_component. rewrite rmatch_run by (apply stops_at_word; right; now right).
  destruct (strip_run is_space s3) as [s4|]; [|reflexivity].
  first_component. rewrite rmatch_word.
  destruct (strip_word "Mac" s4) as [s5|]; [|reflexivity].
  first_component.
  change (rmatch true (RStar ?r) ?s ?c ?k)
    with (star (rmatch true r) k (String.length s) s c).
  rewrite star_then_word by lia.
  now destruct (on_line "Microphone" s5).
Qed.

Lemma getMacInputDevices_selector (h : Host) (opts : RecordingOptions)
      (log : list Spawn) :
  getMacInputDevices h opts log
  = (selector (audio opts) (discovery_text h opts), log ++ [ list_devices opts ]).
Proof.
  unfold getMacInputDevices, selector, bind, spawn, await_ignoring, ret, throw.
  fold (discovery_text h opts).
  rewrite (rsearch_entries _ _ _ rmatch_screen_re),
    (rsearch_entries _ _ _ rmatch_microphone_re).
  destruct (head (entries screen_entry_at _)) as [v|]; [|reflexivity].
  cbn [option_map group1 ret].
  destruct (audio opts); [|reflexivity]. cbn [negb].
  now destruct (head (entries microphone_entry_at _)).
Qed.

(** A discovery text without a Capture Screen entry: resolution fails with
    [Cannot find screen recording device], with or without audio, after the
    one list-devices call. *)
Theorem missing_screen_device
        (h : Host) (opts : RecordingOptions) (log : list Spawn) :
  entries screen_entry_at (discovery_text h opts) = [] ->
  getMacInputDevices h opts log
  = (Throw (Error "Cannot find screen recording device"),
     log ++ [ list_devices opts ]).
Proof.
  intros Hv. rewrite getMacInputDevices_selector. unfold selector.
  now rewrite Hv.
Qed.

Lemma missing_screen_device_witness :
  getMacInputDevices (host_on "darwin" (listing_world "[0] FaceTime HD Camera"))
                     opts_800x600 []
  = (Throw (Error "Cannot find screen recording device"),
     [ list_devices opts_800x600 ]).
Proof.
  apply (missing_screen_device
           (host_on "darwin" (listing_world "[0] FaceTime HD Camera"))
           opts_800x600 []).
  reflexivity.
Defined.

(** With audio requested, the selector pairs the index of the first Capture
    Screen entry with the index of the first microphone entry of the
    discovery text. *)
Theorem selector_with_audio
        (h : Host) (opts : RecordingOptions) (log : list Spawn)
        (v a : string) (screens microphones : list string) :
  audio opts = true ->
  entries screen_entry_at (discovery_text h opts) = v :: screens ->
  entries microphone_entry_at (discovery_text h opts) = a :: microphones ->
  getMacInputDevices h opts log
  = (Ok ("'" +:+ v +:+ ":" +:+ a +:+ "'"), log ++ [ list_devices opts ]).
Proof.
  intros Ha Hv Hm. rewrite getMacInputDevices_selector. unfold selector.
  now rewrite Ha, Hv, Hm.
Qed.

Lemma selector_with_audio_witness :
  getMacInputDevices (host_on "darwin" (listing_world mac_listing))
                     (with_audio true opts_800x600) []
  = (Ok "'1:0'", [ list_devices (with_audio true opts_800x600) ]).
Proof.
  apply (selector_with_audio
           (host_on "darwin" (listing_world mac_listing))
           (with_audio true opts_800x600) [] "1" "0" [] []);
    reflexivity.
Defined.

(** With audio requested, a discovery text with a Capture Screen entry and
    no microphone entry fails with [Cannot find microphone recording
    device]. *)
Theorem missing_microphone_device
        (h : Host) (opts : RecordingOptions) (log : list Spawn)
        (v : string) (screens : list string) :
  audio opts = true ->
  entries screen_entry_at (discovery_text h opts) = v :: screens ->
  entries microphone_entry_at (discovery_text h opts) = [] ->
  getMacInputDevices h opts log
  = (Throw (Error "Cannot find microphone recording device"),
     log ++ [ list_devices opts ]).
Proof.
  intros Ha Hv Hm. rewrite getMacInputDevices_selector. unfold selector.
  now rewrite Ha, Hv, Hm.
Qed.

Lemma missing_microphone_device_witness :
  getMacInputDevices
    (host_on "darwin" (listing_world mac_listing_without_microphone))
    (with_audio true opts_800x600) []
  = (Throw (Error "Cannot find microphone recording device"),
     [ list_devices (with_audio true opts_800x600) ]).
Proof.
  apply (missing_microphone_device
           (host_on "darwin" (listing_world mac_listing_without_microphone))
           (with_audio true opts_800x600) [] "1" []);
    reflexivity.
Defined.

(** ** Reading the desktop bounds *)

Lemma digits_value_stop (acc : option Z) (rest : string) :
  no_digit_ahead rest -> digits_value acc rest = acc.
Proof. destruct rest as [|a rest]; [reflexivity|]. cbn. now intros ->. Qed.

Lemma digits_value_uint (d : Decimal.uint) (acc : Z) (rest : string) :
  no_digit_ahead rest ->
  digits_value (Some acc) (NilEmpty.string_of_uint d +:+ rest)
  = Some (uint_value acc d).
Proof.
  intros Hr. revert acc.
  induction d; intros acc;
    try (cbn [NilEmpty.string_of_uint uint_value];
         change (String ?a ?s +:+ rest) with (String a (s +:+ rest));
         cbn [digits_value]; 
         match goal with |- context [is_digit ?a] => change (is_digit a) with true end;
         cbn [default]; rewrite <- IHd; do 2 f_equal;
         match goal with |- context [nat_of_ascii ?a] =>
           let v := eval vm_compute in (nat_of_ascii a) in
           change (nat_of_ascii a) with v end; cbn [Nat.sub Z.of_nat]; lia).
  cbn [NilEmpty.string_of_uint uint_value].
  now apply digits_value_stop.
Qed.

Lemma of_uint_acc_value (d : Decimal.uint) (p : positive) :
  Zpos (Pos.of_uint_acc d p) = uint_value (Zpos p) d.
Proof.
  revert p. induction d; intros p; cbn [Pos.of_uint_acc uint_value];
    [reflexivity | rewrite IHd; f_equal; lia ..].
Qed.

Lemma of_uint_value (d : Decimal.uint) :
  Z.of_N (Pos.of_uint d) = uint_value 0 d.
Proof.
  induction d; cbn [Pos.of_uint uint_value Z.of_N];
    [reflexivity | exact IHd | apply of_uint_acc_value ..].
Qed.

Lemma to_uint_value (p : positive) : uint_value 0 (Pos.to_uint p) = Zpos p.
Proof. rewrite <- of_uint_value. now rewrite DecimalPos.Unsigned.of_to. Qed.

Lemma parseInt_uint (d : Decimal.uint) (rest : string) :
  d <> Decimal.Nil -> no_digit_ahead rest ->
  parseInt (NilEmpty.string_of_uint d +:+ rest) = of_integer (uint_value 0 d)
  /\ parseInt (String "-" (NilEmpty.string_of_uint d +:+ rest))
     = of_integer (- uint_value 0 d).
Proof.
  intros Hd Hr.
  assert (Hv : digits_value None (NilEmpty.string_of_uint d +:+ rest)
               = Some (uint_value 0 d)).
  { destruct d; [contradiction | ..];
      cbn [NilEmpty.string_of_uint uint_value];
      change (String ?a ?s +:+ rest) with (String a (s +:+ rest));
      cbn [digits_value];
      match goal with |- context [is_digit ?a] => change (is_digit a) with true end;
      cbn [default]; now rewrite digits_value_uint. }
  split.
  - unfold parseInt.
    replace (skip_spaces (NilEmpty.string_of_uint d +:+ rest))
      with (NilEmpty.string_of_uint d +:+ rest)
      by (destruct d; [contradiction | reflexivity ..]).
    destruct d; [contradiction | ..];
      cbn [NilEmpty.string_of_uint] in *;
      change (String ?a ?s +:+ rest) with (String a (s +:+ rest)) in *;
      cbv iota beta; rewrite Hv; f_equal; lia.
  - unfold parseInt. cbn [skip_spaces].
    change (is_space "-") with false. cbv iota beta.
    rewrite Hv; f_equal; lia.
Qed.

Lemma string_of_uint_nonnil (d : Decimal.uint) :
  d <> Decimal.Nil -> NilZero.string_of_uint d = NilEmpty.string_of_uint d.
Proof. destruct d; [contradiction | reflexivity ..]. Qed.

Lemma parseInt_decimal (z : Z) (rest : string) :
  no_digit_ahead rest -> parseInt (decimal z +:+ rest) = of_integer z.
Proof.
  intros Hr. unfold decimal. destruct z as [|p|p]; cbn [Z.to_int].
  - change (parseInt (String "0" rest) = of_integer 0). unfold parseInt.
    change (skip_spaces (String "0" rest)) with (String "0" rest).
    cbv iota beta. cbn [digits_value]. change (is_digit "0") with true.
    cbv iota. now rewrite digits_value_stop.
  - pose proof (DecimalPos.Unsigned.to_uint_nonnil p) as Hn.
    unfold NilZero.string_of_int. rewrite string_of_uint_nonnil by assumption.
    destruct (parseInt_uint (Pos.to_uint p) rest Hn Hr) as [-> _].
    now rewrite to_uint_value.
  - pose proof (DecimalPos.Unsigned.to_uint_nonnil p) as Hn.
    unfold NilZero.string_of_int. rewrite string_of_uint_nonnil by assumption.
    change (String "-" ?s +:+ rest) with (String "-" (s +:+ rest)).
    destruct (parseInt_uint (Pos.to_uint p) rest Hn Hr) as [_ ->].
    now rewrite to_uint_value.
Qed.

(** Integers of up to 53 bits are numbers as they are. *)
Lemma of_integer_safe (z : Z) :
  (Z.abs z < 2 ^ 53)%Z -> of_integer z = IInt z.
Proof.
  intros Hz. unfold of_integer.
  assert (Hl : (Z.log2 (Z.abs z) - 52 <= 0)%Z).
  { destruct (Z.eq_dec (Z.abs z) 0%Z) as [-> | Hnz]; [cbn; lia|].
    assert (Z.log2 (Z.abs z) < 53)%Z by (apply Z.log2_lt_pow2; lia).
    lia. }
  apply Z.leb_le in Hl. now rewrite Hl.
Qed.

(** ** Splitting at commas *)

Lemma append_nil_r (s : string) : s +:+ EmptyString = s.
Proof.
  induction s as [|a s IH]; [reflexivity|].
  change (String a (s +:+ EmptyString) = String a s). now rewrite IH.
Qed.

Lemma length_append (s t : string) :
  String.length (s +:+ t) = (String.length s + String.length t)%nat.
Proof.
  induction s as [|a s IH]; [reflexivity|].
  change (S (String.length (s +:+ t)) = S (String.length s + String.length t)).
  now rewrite IH.
Qed.

Lemma rev_app_append (cur acc l : string) :
  String.rev_app cur acc +:+ l = String.rev_app cur (acc +:+ l).
Proof.
  revert acc. induction cur as [|a cur IH]; intros acc; [reflexivity|].
  cbn [String.rev_app]. now rewrite IH.
Qed.

Lemma rev_cons_append (c : ascii) (cur l : string) :
  String.rev (String c cur) +:+ l = String.rev cur +:+ String c l.
Proof. unfold String.rev. cbn [String.rev_app]. now rewrite !rev_app_append. Qed.

Lemma all_chars_append (p : ascii -> bool) (s t : string) :
  all_chars p (s +:+ t) = all_chars p s && all_chars p t.
Proof.
  induction s as [|a s IH]; [reflexivity|].
  change (p a && all_chars p (s +:+ t) = p a && all_chars p s && all_chars p t).
  rewrite IH. now destruct (p a).
Qed.

Lemma all_chars_impl (p q : ascii -> bool) (s : string) :
  (forall a, p a = true -> q a = true) ->
  all_chars p s = true -> all_chars q s = true.
Proof.
  intros Hpq. induction s as [|a s IH]; [reflexivity|]. cbn [all_chars].
  intros [Ha Hs]%andb_prop. now rewrite (Hpq a Ha), IH.
Qed.

Section StarAccepting.
Context {R : Type}.
Variable ci : bool.

Lemma star_set_accepting (p : ascii -> bool) (k : @Cont R) (n : nat)
      (s : string) (cap : option string) :
  (String.length s <= n)%nat ->
  (forall s' c, k s' c <> None) ->
  star (rmatch ci (RSet p)) k n s cap = k (drop_while p s) cap.
Proof.
  intros Hn Hk. revert s Hn.
  induction n as [|n IH]; intros s Hn.
  - destruct s; [reflexivity | cbn in Hn; lia].
  - cbn [star rmatch]. destruct s as [|a s]; [reflexivity|].
    cbn [drop_while]. destruct (p a) eqn:Hp; [|reflexivity].
    replace (String.length s <? String.length (String a s))%nat with true
      by (symmetry; apply Nat.ltb_lt; cbn; lia).
    rewrite IH by (cbn in Hn; lia).
    destruct (k (drop_while p s) cap) eqn:Hv; [reflexivity|].
    now apply Hk in Hv.
Qed.
End StarAccepting.

Lemma space_not_comma (a : ascii) :
  is_space a = true -> Ascii.eqb "," a = false.
Proof. destruct a as [[] [] [] [] [] [] [] []]; vm_compute; congruence. Qed.

(** The separator pattern, as a scanner: blanks, a comma, blanks. *)
Lemma rmatch_comma_re (s : string) :
  rmatch false comma_re s None (fun rest _ => Some rest)
  = match strip_char "," (drop_while is_space s) with
    | Some s' => Some (drop_while is_space s')
    | None => None
    end.
Proof.
  unfold comma_re. cbn [RCat].
  change (rmatch false (RSeq ?r1 ?r2) ?s ?c ?k)
    with (rmatch false r1 s c (fun s1 c1 => rmatch false r2 s1 c1 k)).
  change (rmatch false (RStar ?r) ?s ?c ?k)
    with (star (rmatch false r) k (String.length s) s c).
  rewrite star_set; [| lia |].
  - cbv beta.
    change (rmatch false (RSeq ?r1 ?r2) ?s ?c ?k)
      with (rmatch false r1 s c (fun s1 c1 => rmatch false r2 s1 c1 k)).
    destruct (drop_while is_space s) as [|a s']; [reflexivity|].
    change (rmatch false (RChr ?c) (String ?a ?s) ?cap ?k)
      with (if chr_eq false c a then k s cap else None).
    cbn [strip_char]. unfold chr_eq.
    destruct (Ascii.eqb "," a); [|reflexivity]. cbv beta.
    change (rmatch false (RSeq ?r1 ?r2) ?s ?c ?k)
      with (rmatch false r1 s c (fun s1 c1 => rmatch false r2 s1 c1 k)).
    change (rmatch false (RStar ?r) ?s ?c ?k)
      with (star (rmatch false r) k (String.length s) s c).
    now rewrite star_set_accepting by (lia || discriminate).
  - intros a s' c Ha. cbn [rmatch]. unfold chr_eq.
    now rewrite (space_not_comma a Ha).
Qed.

Lemma no_separator (l : string) :
  all_chars not_comma l = true ->
  strip_char "," (drop_while is_space l) = None.
Proof.
  induction l as [|a l IH]; [reflexivity|]. cbn [all_chars drop_while].
  intros [Ha Hl]%andb_prop. destruct (is_space a); [now apply IH|].
  cbn [strip_char]. unfold not_comma in Ha. now destruct (Ascii.eqb "," a).
Qed.

Lemma split_go_no_comma (n : nat) (cur l : string) :
  all_chars not_comma l = true ->
  split_go n false comma_re cur l = [ String.rev cur +:+ l ].
Proof.
  revert cur l. induction n as [|n IH]; intros cur l Hl; [reflexivity|].
  cbn [split_go]. destruct l as [|c l]; [now rewrite append_nil_r|].
  rewrite rmatch_comma_re, no_separator by assumption.
  cbn [all_chars] in Hl. apply andb_prop in Hl as [_ Hl].
  now rewrite IH, rev_cons_append.
Qed.

Lemma drop_while_field (f t : string) :
  f <> EmptyString -> all_chars field_char f = true ->
  drop_while is_space (f +:+ t) = f +:+ t.
Proof.
  destruct f as [|a f]; [contradiction|]. intros _. cbn [all_chars].
  intros [Ha _]%andb_prop. unfold field_char in Ha.
  change (String a f +:+ t) with (String a (f +:+ t)). cbn [drop_while].
  now destruct (is_space a).
Qed.

Lemma split_go_field (f : string) (n : nat) (cur rest : string) :
  all_chars field_char f = true ->
  (String.length f < n)%nat ->
  split_go n false comma_re cur (f +:+ ", " +:+ rest)
  = (String.rev cur +:+ f)
    :: split_go (n - String.length f - 1) false comma_re EmptyString
                (drop_while is_space rest).
Proof.
  revert n cur. induction f as [|c f IH]; intros n cur Hf Hn.
  - destruct n as [|n]; [cbn in Hn; lia|].
    change (EmptyString +:+ ", " +:+ rest) with (String "," (String " " rest)).
    cbn [split_go]. rewrite rmatch_comma_re.
    change (drop_while is_space (String "," (String " " rest)))
      with (String "," (String " " rest)).
    cbn [strip_char]. change (Ascii.eqb "," ",") with true. cbv iota.
    change (drop_while is_space (String " " rest)) with (drop_while is_space rest).
    pose proof (drop_while_length is_space rest) as Hle.
    replace (String.length (drop_while is_space rest)
             =? String.length (String "," (String " " rest)))%nat with false
      by (symmetry; apply Nat.eqb_neq; cbn [String.length]; lia).
    cbn [andb String.length]. rewrite append_nil_r.
    now replace (S n - 0 - 1)%nat with n by lia.
  - destruct n as [|n]; [cbn in Hn; lia|].
    cbn [all_chars] in Hf. apply andb_prop in Hf as [Hc Hf].
    change (String c f +:+ ", " +:+ rest) with (String c (f +:+ ", " +:+ rest)).
    cbn [split_go]. rewrite rmatch_comma_re.
    unfold field_char in Hc. apply andb_prop in Hc as [Hs Hc].
    cbn [drop_while]. destruct (is_space c); [discriminate|].
    cbn [strip_char]. unfold not_comma in Hc.
    destruct (Ascii.eqb "," c); [discriminate|].
    rewrite IH by (assumption || (cbn in Hn; lia)).
    rewrite rev_cons_append. cbn [String.length].
    now replace (S n - S (String.length f) - 1)%nat
      with (n - String.length f - 1)%nat by lia.
Qed.

Lemma digit_is_field_char (a : ascii) : is_digit a = true -> field_char a = true.
Proof. destruct a as [[] [] [] [] [] [] [] []]; vm_compute; congruence. Qed.

Lemma string_of_uint_digits (d : Decimal.uint) :
  all_chars is_digit (NilEmpty.string_of_uint d) = true.
Proof. induction d; cbn [NilEmpty.string_of_uint all_chars]; [reflexivity | exact IHd ..]. Qed.

Lemma decimal_field (z : Z) :
  all_chars field_char (decimal z) = true /\ decimal z <> EmptyString.
Proof.
  assert (Hu : forall p, all_chars field_char
                           (NilEmpty.string_of_uint (Pos.to_uint p)) = true
                         /\ NilEmpty.string_of_uint (Pos.to_uint p) <> EmptyString).
  { intros p. split.
    - apply (all_chars_impl is_digit); [apply digit_is_field_char|].
      apply string_of_uint_digits.
    - pose proof (DecimalPos.Unsigned.to_uint_nonnil p) as Hn.
      destruct (Pos.to_uint p); [contradiction | discriminate ..]. }
  unfold decimal. destruct z as [|p|p]; cbn [Z.to_int].
  - split; [reflexivity | discriminate].
  - unfold NilZero.string_of_int.
    rewrite string_of_uint_nonnil by apply DecimalPos.Unsigned.to_uint_nonnil.
    apply Hu.
  - unfold NilZero.string_of_int.
    rewrite string_of_uint_nonnil by apply DecimalPos.Unsigned.to_uint_nonnil.
    split; [|discriminate]. cbn [all_chars]. now rewrite (proj1 (Hu p)).
Qed.

Lemma split_nonempty (f t : string) :
  f <> EmptyString ->
  split false comma_re (f +:+ t)
  = split_go (String.length (f +:+ t)) false comma_re EmptyString (f +:+ t).
Proof. destruct f; [contradiction | reflexivity]. Qed.

Lemma split_bounds_line (x y w h : Z) :
  split false comma_re (bounds_line x y w h)
  = [ decimal x; decimal y; decimal w; decimal h +:+ lf ].
Proof.
  unfold bounds_line.
  destruct (decimal_field x) as [Hx Hx'], (decimal_field y) as [Hy Hy'],
    (decimal_field w) as [Hw Hw'], (decimal_field h) as [Hh Hh'].
  rewrite split_nonempty by assumption.
  do 3 (rewrite split_go_field, drop_while_field by
           (assumption || (rewrite ?length_append; cbn [String.length]; lia))).
  rewrite split_go_no_comma; [reflexivity|].
  rewrite all_chars_append.
  rewrite (all_chars_impl field_char not_comma) by
      (assumption || (intros a [_ Ha]%andb_prop; exact Ha)).
  reflexivity.
Qed.

Lemma on_bounds_data_bounds_line (x y w h : Z) (wh : Integral * Integral) :
  on_bounds_data wh (bounds_line x y w h) = (of_integer w, of_integer h).
Proof.
  unfold on_bounds_data. rewrite split_bounds_line.
  cbn [show_part lookup list_lookup].
  rewrite <- (append_nil_r (decimal w)).
  now rewrite !parseInt_decimal.
Qed.

Lemma split_no_comma (v : string) :
  all_chars not_comma v = true -> split false comma_re v = [ v ].
Proof.
  intros Hv. destruct v as [|a v]; [reflexivity|].
  unfold split. now rewrite split_go_no_comma.
Qed.

(** ** Recording on darwin *)

Lemma getInputDevices_darwin (h : Host) (opts : RecordingOptions) (log : list Spawn) :
  platform h = "darwin" ->
  exit_ok (world h (fst geometry_query) (snd geometry_query)) = true ->
  getInputDevices h opts log
  = (match selector (audio opts) (discovery_text h opts) with
     | Ok i => Ok (Some (darwin_input (screen_size h) i))
     | Throw e => Throw e
     end,
     log ++ [ geometry_query; list_devices opts ]).
Proof.
  intros Hp Hx. unfold getInputDevices. rewrite Hp.
  cbn [String.eqb Ascii.eqb Bool.eqb].
  unfold geometry_query in *. cbn [fst snd] in Hx.
  unfold bind at 1 2. unfold spawn at 1. unfold await, finish_then.
  rewrite Hx. unfold ret at 1. unfold bind.
  rewrite getMacInputDevices_selector, <- app_assoc.
  now destruct (selector (audio opts) (discovery_text h opts)).
Qed.

(** A recording on darwin runs three processes in order: the geometry
    query, the encoder in list-devices mode and the encoder itself, with the
    device format [avfoundation] and the selector built from the discovery
    text. Its filter graph scales to the screen size read from the geometry
    query before it crops to the capture region. *)
Theorem darwin_recording
        (h : Host) (opts : RecordingOptions) (log : list Spawn) (i : string) :
  platform h = "darwin" ->
  exit_ok (world h (fst geometry_query) (snd geometry_query)) = true ->
  selector (audio opts) (discovery_text h opts) = Ok i ->
  launchProcess h opts log
  = (Ok (finish_then
           (world h (ffmpegBinary opts)
                  (tokens opts (darwin_input (screen_size h) i)))
           opts),
     log ++ [ geometry_query; list_devices opts;
              recording opts (darwin_input (screen_size h) i) ])
  /\ ends_in [ VStr "-vf";
               VStr ("'scale=" +:+ show_int (fst (screen_size h)) +:+ ":"
                     +:+ show_int (snd (screen_size h))
                     +:+ ":flags=lanczos," +:+ crop opts +:+ "'");
               VStr (file opts) ]
             (tokens opts (darwin_input (screen_size h) i)).
Proof.
  intros Hp Hx Hi. split.
  - rewrite (launchProcess_spawns h opts (darwin_input (screen_size h) i) log
               (log ++ [ geometry_query; list_devices opts ])).
    + unfold recording. now rewrite <- app_assoc.
    + rewrite getInputDevices_darwin by assumption. now rewrite Hi.
  - destruct (screen_size h) as [w hh]. cbn [fst snd].
    exists (duration_part opts ++ video_part opts (darwin_input (w, hh) i)
            ++ audio_part opts (darwin_input (w, hh) i)
            ++ merged (default ∅ (flags opts)) recordingArgs.video).
    rewrite tokens_shape. unfold tail_part, launchProcess_vf.
    cbn [darwin_input resolution]. fold (crop opts).
    rewrite <- !app_assoc, !append_assoc. reflexivity.
Qed.

Lemma darwin_recording_witness :
  launchProcess
    (host_on "darwin" (darwin_world [ "0, 0, 1440, 900" +:+ lf ] mac_listing))
    opts_800x600 []
  = (Ok (Ok opts_800x600),
     [ geometry_query; list_devices opts_800x600;
       recording opts_800x600 (darwin_input (IInt 1440, IInt 900) "'1:none'") ])
  /\ ends_in [ VStr "-vf";
               VStr "'scale=1440:900:flags=lanczos,crop=800:600:0:0'";
               VStr "out.mp4" ]
             (tokens opts_800x600 (darwin_input (IInt 1440, IInt 900) "'1:none'")).
Proof.
  apply (darwin_recording
           (host_on "darwin" (darwin_world [ "0, 0, 1440, 900" +:+ lf ] mac_listing))
           opts_800x600 [] "'1:none'");
    reflexivity.
Defined.

(** The screen size is read from the last chunk the geometry query prints,
    every chunk overwriting what the chunks before it gave: when that chunk
    is the line [x, y, w, h], for any integers, the size is the pair of the
    numbers nearest to [w] and [h], which are [w] and [h] themselves when
    they have at most 53 bits. The chunk is split at its commas and the
    third and fourth fields are parsed as integers, the line feed after the
    fourth ignored. *)
Theorem last_geometry_chunk_wins
        (h : Host) (chunks : list string) (x y w hh : Z) :
  stdout (world h (fst geometry_query) (snd geometry_query))
  = chunks ++ [ bounds_line x y w hh ] ->
  screen_size h = (of_integer w, of_integer hh)
  /\ ((Z.abs w < 2 ^ 53)%Z -> (Z.abs hh < 2 ^ 53)%Z ->
      screen_size h = (IInt w, IInt hh)).
Proof.
  intros Hs.
  assert (Hsz : screen_size h = (of_integer w, of_integer hh)).
  { unfold screen_size. rewrite Hs, fold_left_app.
    apply on_bounds_data_bounds_line. }
  split; [exact Hsz|].
  intros Hw Hh. now rewrite Hsz, !of_integer_safe.
Qed.

Lemma last_geometry_chunk_wins_witness :
  screen_size
    (host_on "darwin"
       (darwin_world [ bounds_line 0 0 800 600; bounds_line 0 0 1440 900 ]
                     mac_listing))
  = (IInt 1440, IInt 900).
Proof.
  refine (proj2 (last_geometry_chunk_wins
                   (host_on "darwin"
                      (darwin_world [ bounds_line 0 0 800 600;
                                      bounds_line 0 0 1440 900 ] mac_listing))
                   [ bounds_line 0 0 800 600 ] 0 0 1440 900 _) _ _).
  - reflexivity.
  - reflexivity.
  - reflexivity.
Defined.

(** A last chunk without a comma has no third and fourth field: the screen
    size is [NaN, NaN], and the recording's filter graph scales to
    [NaN:NaN]. *)
Theorem geometry_without_commas
        (h : Host) (opts : RecordingOptions) (chunks : list string)
        (v i : string) :
  all_chars not_comma v = true ->
  stdout (world h (fst geometry_query) (snd geometry_query)) = chunks ++ [ v ] ->
  screen_size h = (INaN, INaN)
  /\ launchProcess_vf opts (darwin_input (screen_size h) i)
     = "scale=NaN:NaN:flags=lanczos," +:+ crop opts.
Proof.
  intros Hv Hs.
  assert (Hsz : screen_size h = (INaN, INaN)).
  { unfold screen_size. rewrite Hs, fold_left_app. cbn [fold_left].
    unfold on_bounds_data. now rewrite split_no_comma. }
  split; [exact Hsz|]. now rewrite Hsz.
Qed.

Lemma geometry_without_commas_witness :
  screen_size (host_on "darwin" (darwin_world [ "1440x900" ] mac_listing))
  = (INaN, INaN)
  /\ launchProcess_vf
       opts_800x600
       (darwin_input
          (screen_size (host_on "darwin" (darwin_world [ "1440x900" ] mac_listing)))
          "'1:none'")
     = "scale=NaN:NaN:flags=lanczos,crop=800:600:0:0".
Proof.
  apply (geometry_without_commas
           (host_on "darwin" (darwin_world [ "1440x900" ] mac_listing))
           opts_800x600 [] "1440x900" "'1:none'");
    reflexivity.
Defined.

(** A geometry query that succeeds without printing anything leaves the
    screen size at [0, 0], and the recording's filter graph scales to
    [0:0]. *)
Theorem silent_geometry_query (h : Host) (opts : RecordingOptions) (i : string) :
  stdout (world h (fst geometry_query) (snd geometry_query)) = [] ->
  screen_size h = (IInt 0, IInt 0)
  /\ launchProcess_vf opts (darwin_input (screen_size h) i)
     = "scale=0:0:flags=lanczos," +:+ crop opts.
Proof.
  intros Hs. unfold screen_size. rewrite Hs. split; reflexivity.
Qed.

Lemma silent_geometry_query_witness :
  screen_size (host_on "darwin" quiet_world) = (IInt 0, IInt 0)
  /\ launchProcess_vf opts_800x600
                      (darwin_input (screen_size (host_on "darwin" quiet_world))
                                    "'1:none'")
     = "scale=0:0:flags=lanczos,crop=800:600:0:0".
Proof.
  apply (silent_geometry_query (host_on "darwin" quiet_world) opts_800x600 "'1:none'").
  reflexivity.
Defined.

(** ** The output path of a transcode *)

Lemma substring_all (s : string) : substring 0 (String.length s) s = s.
Proof. induction s as [|a s IH]; [reflexivity|]. cbn. now rewrite IH. Qed.

Lemma substring_none (n : nat) (s : string) : substring n 0 s = EmptyString.
Proof. revert n. induction s as [|a s IH]; intros [|n]; cbn; auto. Qed.

Lemma strip_prefix_prefix (p s : string) :
  strip_prefix p s
  = if String.prefix p s
    then Some (substring (String.length p) (String.length s - String.length p) s)
    else None.
Proof.
  revert s. induction p as [|a p IH]; intros s.
  - replace (String.prefix EmptyString s) with true by now destruct s.
    cbn [strip_prefix String.length].
    now rewrite Nat.sub_0_r, substring_all.
  - destruct s as [|b s]; [reflexivity|].
    cbn [strip_prefix String.prefix].
    destruct (ascii_dec a b) as [->|Hne].
    + rewrite Ascii.eqb_refl, IH. reflexivity.
    + apply Ascii.eqb_neq in Hne. now rewrite Hne.
Qed.

Lemma replace_index (pat rep s : string) :
  replace pat rep s
  = match String.index 0 pat s with
    | Some i =>
        substring 0 i s +:+ rep
        +:+ substring (i + String.length pat)
              (String.length s - (i + String.length pat)) s
    | None => s
    end.
Proof.
  induction s as [|c s IH].
  - destruct pat; reflexivity.
  - cbn [replace String.index]. rewrite strip_prefix_prefix.
    destruct (String.prefix pat (String c s)); [reflexivity|].
    rewrite IH. destruct (String.index 0 pat s) as [i|]; reflexivity.
Qed.

(** The output path of a transcode is the recording's path with the first
    occurrence of [.mp4] rewritten to [.gif], wherever in the path it
    stands; a path without [.mp4] is left as it is. *)
Theorem output_path_rewrites_first_occurrence (opts : RecordingOptions) :
  final opts
  = match String.index 0 ".mp4" (file opts) with
    | Some i =>
        substring 0 i (file opts) +:+ ".gif"
        +:+ substring (i + 4) (String.length (file opts) - (i + 4)) (file opts)
    | None => file opts
    end.
Proof. unfold final. now rewrite replace_index. Qed.

(** When the only occurrence of [.mp4] in the recording's path is its
    suffix, the output path is the path with that suffix replaced by
    [.gif]. *)
Theorem output_path_of_plain_recording (opts : RecordingOptions) :
  String.index 0 ".mp4" (file opts) = Some (String.length (file opts) - 4) ->
  final opts = gif_suffixed (file opts).
Proof.
  intros Hi. unfold final, gif_suffixed. rewrite replace_index, Hi.
  cbn [String.length].
  replace (String.length (file opts)
           - (String.length (file opts) - 4 + 4))%nat with 0%nat by lia.
  now rewrite substring_none.
Qed.

Lemma output_path_of_plain_recording_witness :
  final opts_800x600 = gif_suffixed (file opts_800x600).
Proof.
  apply (output_path_of_plain_recording opts_800x600). reflexivity.
Defined.

(** A recording whose path has no [.mp4] in it is its own output path: the
    palette-use call of its transcode reads the recording and writes, with
    [-y], to the same file. *)
Theorem transcode_overwrites_other_recordings
        (h : Host) (opts : RecordingOptions) :
  String.index 0 ".mp4" (file opts) = None ->
  final opts = file opts
  /\ paletteuse_args h opts
     = [ VStr "-i"; VStr (file opts); VStr "-i"; VStr (paletteFile h);
         VStr "-lavfi"; VStr (paletteuse_filter opts);
         VStr "-y"; VStr (file opts) ].
Proof.
  intros Hi.
  assert (Hf : final opts = file opts)
    by (unfold final; now rewrite replace_index, Hi).
  split; [exact Hf|]. unfold paletteuse_args. now rewrite Hf.
Qed.

Lemma transcode_overwrites_other_recordings_witness :
  final (with_file "out.mov" opts_800x600) = "out.mov"
  /\ paletteuse_args (host_on "linux" quiet_world) (with_file "out.mov" opts_800x600)
     = [ VStr "-i"; VStr "out.mov"; VStr "-i"; VStr "/tmp/palette-gen.png";
         VStr "-lavfi"; VStr (paletteuse_filter (with_file "out.mov" opts_800x600));
         VStr "-y"; VStr "out.mov" ].
Proof.
  apply (transcode_overwrites_other_recordings
           (host_on "linux" quiet_world) (with_file "out.mov" opts_800x600)).
  reflexivity.
Defined.


(** ** The device patterns on the encoder's listing *)

Lemma strip_run_append (p : ascii -> bool) (n t : string) :
  n <> EmptyString -> all_chars p n = true ->
  strip_run p (n +:+ t) = Some (drop_while p t)
  /\ take_while p (n +:+ t) = n +:+ take_while p t.
Proof.
  intros Hn Hp.
  assert (H : drop_while p (n +:+ t) = drop_while p t
              /\ take_while p (n +:+ t) = n +:+ take_while p t).
  { clear Hn. induction n as [|a n IH]; [now split|].
    cbn [all_chars] in Hp. apply andb_prop in Hp as [Ha Hp].
    change (String a n +:+ ?u) with (String a (n +:+ u)).
    cbn [drop_while take_while]. rewrite Ha.
    destruct (IH Hp) as [-> ->]. now split. }
  destruct H as [Hd Ht]. split; [|exact Ht].
  destruct n as [|a n]; [contradiction|].
  cbn [all_chars] in Hp. apply andb_prop in Hp as [Ha Hp].
  change (String a n +:+ t) with (String a (n +:+ t)) in *.
  cbn [strip_run]. rewrite Ha. cbn [drop_while] in Hd. rewrite Ha in Hd.
  now rewrite Hd.
Qed.

(** The patterns read the index back from the lines the encoder prints in
    list-devices mode: at a line [[n] Capture screen ...] the screen pattern
    matches and captures [n], and at a line [[n] MacBook Pro Microphone ...]
    the microphone pattern does, for an index [n] of any number of
    digits. *)
Theorem listed_devices_are_matched (n rest : string) :
  n <> EmptyString -> all_chars is_digit n = true ->
  rmatch true screen_re ("[" +:+ n +:+ "] Capture screen" +:+ rest) None
         (fun _ cap => Some cap)
  = Some (Some n)
  /\ rmatch true microphone_re ("[" +:+ n +:+ "] MacBook Pro Microphone" +:+ rest)
            None (fun _ cap => Some cap)
     = Some (Some n).
Proof.
  intros Hn Hd.
  rewrite rmatch_screen_re, rmatch_microphone_re.
  unfold screen_entry_at, microphone_entry_at, bracketed_index.
  change ("[" +:+ ?u) with (String "[" u).
  cbn [strip_char]. change (Ascii.eqb "[" "[") with true.
  cbn [mbind option_bind].
  destruct (strip_run_append is_digit n ("] Capture screen" +:+ rest) Hn Hd)
    as [-> ->].
  destruct (strip_run_append is_digit n ("] MacBook Pro Microphone" +:+ rest) Hn Hd)
    as [-> ->].
  split.
  - change ("] Capture screen" +:+ rest)
      with (String "]" (String " " ("Capture screen" +:+ rest))).
    cbn [drop_while take_while]. change (is_digit "]") with false.
    cbn [mbind option_bind strip_char]. change (Ascii.eqb "]" "]") with true.
    cbn [mbind option_bind strip_run]. change (is_space " ") with true.
    change ("Capture screen" +:+ rest)
      with (String "C" ("apture" +:+ String " " ("screen" +:+ rest))).
    cbn [drop_while]. change (is_space "C") with false.
    cbn [mbind option_bind].
    change (strip_word "Capture"
              (String "C" ("apture" +:+ String " " ("screen" +:+ rest))))
      with (Some (String " " (String "s" ("creen" +:+ rest)))).
    cbn [mbind option_bind strip_run]. change (is_space " ") with true.
    cbn [drop_while]. change (is_space "s") with false.
    cbn [mbind option_bind].
    change (strip_word "Screen" (String "s" ("creen" +:+ rest)))
      with (Some rest).
    cbn [mbind option_bind]. now rewrite append_nil_r.
  - change ("] MacBook Pro Microphone" +:+ rest)
      with (String "]" (String " " (String "M" ("acBook Pro Microphone" +:+ rest)))).
    cbn [drop_while take_while]. change (is_digit "]") with false.
    cbn [mbind option_bind strip_char]. change (Ascii.eqb "]" "]") with true.
    cbn [mbind option_bind strip_run]. change (is_space " ") with true.
    cbn [drop_while]. change (is_space "M") with false.
    cbn [mbind option_bind].
    change (strip_word "Mac" (String "M" ("acBook Pro Microphone" +:+ rest)))
      with (Some ("Book Pro Microphone" +:+ rest)).
    cbn [mbind option_bind].
    change (on_line "Microphone" ("Book Pro Microphone" +:+ rest)) with true.
    cbv iota. now rewrite append_nil_r.
Qed.

Lemma listed_devices_are_matched_witness :
  rmatch true screen_re "[12] Capture screen 0" None (fun _ cap => Some cap)
  = Some (Some "12")
  /\ rmatch true microphone_re "[12] MacBook Pro Microphone 0" None
            (fun _ cap => Some cap)
     = Some (Some "12").
Proof.
  apply (listed_devices_are_matched "12" " 0"); [discriminate | reflexivity].
Defined.


(** ** Numbers, as the language prints and multiplies them *)

(** Template literals print integers in decimal below [10^21] and in
    exponent notation from there, fractions with the shortest digits that
    read back, and parsed integers rounded to 53 bits. *)
Lemma printed_numbers :
  map to_string
      [ Fin 30; Fin (inject_Z (10 ^ 21)); lit (2997 # 100); lit (1 # 10);
        lit (1 # 10000000); Fin (-5 # 2); mul (Fin 1440) (lit (7 # 10));
        NaN; Inf false ]
  = [ "30"; "1e+21"; "29.97"; "0.1"; "1e-7"; "-2.5"; "1007.9999999999999";
      "NaN"; "Infinity" ]
  /\ show_int (parseInt "9007199254740993") = "9007199254740992"
  /\ trunc_mul (Fin 10) (lit (7 # 10)) = IInt 7.
Proof. vm_compute. repeat split. Qed.

End FFmpegSpec.
